(** * DeepCTR-PyTorch: the model assemblers DCN, FiBiNET and xDeepFM

  A shallow embedding of [deepctr_torch/models/dcn.py], [fibinet.py] and
  [xdeepfm.py].  Python integers are [Z], tuples and lists of layer sizes
  are [list Z], exceptions are an inductive type, and a constructor or a
  forward pass is a computation in a small monad written out below.

  The interaction layers themselves ([CrossNet], [CIN],
  [BilinearInteraction], [SENETLayer], [DNN]), [BaseModel] and the
  [inputs] module are not part of the three files: the assemblers take
  them as the fields of a class, [Framework], and the layers whose
  behaviour a statement depends on are modelled from the written
  specification, each marked so.

  The definitions come first; the properties start at the heading
  "Properties". *)

From Stdlib Require Import ZArith List Bool String Lia Reals Lra Permutation.
Import ListNotations.

Set Implicit Arguments.

Local Open Scope Z_scope.

(** ** Python values *)

Module Py.

(** The exceptions that the three files can raise or let through. *)
Inductive exn : Type :=
| NotImplementedError
| IndexError
| UnboundLocalError
| ValueError
| RuntimeError.

Inductive result (A : Type) : Type :=
| Ok (a : A)
| Raise (e : exn).

Arguments Ok {A} a.
Arguments Raise {A} e.

Definition is_ok {A} (r : result A) : bool :=
  match r with Ok _ => true | Raise _ => false end.

(** [xs[-1]]: the last element, [IndexError] on the empty sequence. *)
Fixpoint index_last (xs : list Z) : result Z :=
  match xs with
  | [] => Raise IndexError
  | [x] => Ok x
  | _ :: rest => index_last rest
  end.

(** [xs[:-1]]: everything but the last element; the empty sequence
    slices to the empty sequence. *)
Definition slice_init (xs : list Z) : list Z := removelast xs.

(** [sum(xs)] on integers. *)
Definition sum (xs : list Z) : Z := fold_left Z.add xs 0.

(** [len(xs)] *)
Definition len {A} (xs : list A) : Z := Z.of_nat (List.length xs).

End Py.

Import Py.

(** ** Feature columns

  [SparseFeat] and [DenseFeat] are the two named tuples of the [inputs]
  module that the assemblers test with [isinstance]; both carry a name and
  a [dimension]. *)

Inductive FeatureColumn : Type :=
| SparseFeat (name : string) (dimension : Z)
| DenseFeat (name : string) (dimension : Z).

Definition is_SparseFeat (c : FeatureColumn) : bool :=
  match c with SparseFeat _ _ => true | DenseFeat _ _ => false end.

Definition is_DenseFeat (c : FeatureColumn) : bool :=
  match c with DenseFeat _ _ => true | SparseFeat _ _ => false end.

Definition dimension (c : FeatureColumn) : Z :=
  match c with SparseFeat _ d => d | DenseFeat _ d => d end.

(** ** Widths computed by the assemblers *)

Module FiBiNETDims.

(** [FiBiNET.compute_input_dim]. *)
Definition compute_input_dim (feature_columns : list FeatureColumn)
           (embedding_size : Z) (dense_only : bool) : Z :=
  let sparse_feature_columns :=
    if 0 <? len feature_columns then filter is_SparseFeat feature_columns else [] in
  let dense_feature_columns :=
    if 0 <? len feature_columns then filter is_DenseFeat feature_columns else [] in
  let field_size := len sparse_feature_columns in
  if dense_only then
    sum (map dimension dense_feature_columns)
  else
    field_size * (field_size - 1) * embedding_size
    + sum (map dimension dense_feature_columns).

End FiBiNETDims.

Module XDeepFMDims.

(** The [featuremap_num] of [xDeepFM.__init__]: the in-feature count of
    [cin_linear].  The sum and the floor division are evaluated before the
    last element is read. *)
Definition featuremap_num (cin_split_half : bool) (cin_layer_size : list Z)
  : result Z :=
  if cin_split_half then
    let half := sum (slice_init cin_layer_size) / 2 in
    match index_last cin_layer_size with
    | Ok last => Ok (half + last)
    | Raise e => Raise e
    end
  else Ok (sum cin_layer_size).

End XDeepFMDims.

(** ** Tensors

    A tensor is a nest of stacks over real scalars: a batch of rows is a
    [Stack] of [Stack]s of [Scalar]s. *)

#[warnings="-register-all"]
Inductive tensor : Type :=
| Scalar (v : R)
| Stack (ts : list tensor).

(** Element-wise application of a scalar function. *)
Fixpoint tmap (f : R -> R) (t : tensor) : tensor :=
  match t with
  | Scalar v => Scalar (f v)
  | Stack ts => Stack (map (tmap f) ts)
  end.

(** Every scalar of the tensor satisfies [P]. *)
Fixpoint all_values (P : R -> Prop) (t : tensor) : Prop :=
  match t with
  | Scalar v => P v
  | Stack ts => (fix all (l : list tensor) : Prop :=
                   match l with
                   | [] => True
                   | x :: rest => all_values P x /\ all rest
                   end) ts
  end.

(** The shape of a tensor: the tensor with its scalars erased. *)
Definition shape (t : tensor) : tensor := tmap (fun _ => 0%R) t.

(** A row holding exactly one scalar. *)
Definition is_unit_row (t : tensor) : bool :=
  match t with
  | Stack [Scalar _] => true
  | _ => false
  end.

(** A batch with one scalar per row, the shape [(batch, 1)]. *)
Definition is_column (t : tensor) : bool :=
  match t with
  | Stack rows => forallb is_unit_row rows
  | Scalar _ => false
  end.

(** ** Construction of a model

    A constructor logs each component it instantiates and stops at the first
    exception. *)

Inductive Task : Type :=
| binary
| regression.

Inductive reg_target : Type :=
| RegDnnWeights
| RegDnnLinearWeight
| RegCrossnetKernels
| RegCinWeights.

Inductive ctor_event : Type :=
| NewBaseModel (linear_feature_columns dnn_feature_columns : list FeatureColumn)
               (embedding_size : Z) (dnn_hidden_units : list Z) (task : Task)
| NewDNN (inputs_dim : Z) (hidden_units : list Z)
| NewLinear (in_features out_features : Z)
| NewCrossNet (input_feature_num layer_num : Z)
| NewCIN (field_size : Z) (layer_size : list Z) (split_half : bool)
| NewSENETLayer (filed_size reduction_ratio : Z)
| NewBilinearInteraction (filed_size embedding_size : Z) (bilinear_type : string)
| AddRegularizationLoss (target : reg_target).

Definition is_NewCrossNet (ev : ctor_event) : bool :=
  match ev with NewCrossNet _ _ => true | _ => false end.

Definition Ctor (A : Type) : Type := (list ctor_event * result A)%type.

Definition cret {A} (a : A) : Ctor A := ([], Ok a).

Definition craise {A} (e : exn) : Ctor A := ([], Raise e).

Definition cbind {A B} (c : Ctor A) (k : A -> Ctor B) : Ctor B :=
  match c with
  | (log, Ok a) => let (log', r) := k a in (log ++ log', r)
  | (log, Raise e) => (log, Raise e)
  end.

Definition clift {A} (r : result A) : Ctor A := ([], r).

Definition trace {A} (c : Ctor A) : list ctor_event := fst c.

Definition outcome {A} (c : Ctor A) : result A := snd c.

(** ** A forward pass

    The state of a forward pass is the parameter store of the model together
    with the list of the components called so far. *)

Inductive component : Type :=
| c_input_from_feature_columns
| c_linear_model
| c_dnn
| c_dnn_linear
| c_crossnet
| c_cin
| c_cin_linear
| c_SE
| c_Bilinear
| c_out.

Definition is_crossnet (c : component) : bool :=
  match c with c_crossnet => true | _ => false end.

Record fstate (Store : Type) : Type := mk_fstate {
  params : Store;
  calls : list component
}.

Definition Fwd (Store A : Type) : Type :=
  fstate Store -> (result A * fstate Store)%type.

Definition fret {Store A} (a : A) : Fwd Store A := fun st => (Ok a, st).

Definition fraise {Store A} (e : exn) : Fwd Store A := fun st => (Raise e, st).

Definition fbind {Store A B} (c : Fwd Store A) (k : A -> Fwd Store B)
  : Fwd Store B :=
  fun st =>
    match c st with
    | (Ok a, st') => k a st'
    | (Raise e, st') => (Raise e, st')
    end.

(** A pure tensor operation that may raise. *)
Definition flift {Store A} (r : result A) : Fwd Store A := fun st => (r, st).

(** Calling a layer of the model: the layer sees the parameter store, and
    the call is logged. *)
Definition call {Store A} (c : component)
           (layer : Store -> result A * Store) : Fwd Store A :=
  fun st =>
    let (r, p) := layer (params st) in
    (r, {| params := p; calls := calls st ++ [c] |}).

Declare Scope py_scope.
Delimit Scope py_scope with py.

Notation "x <- c ;; k" := (fbind c (fun x => k))
  (at level 61, c at next level, right associativity) : py_scope.
Notation "' pat <- c ;; k" := (fbind c (fun x => match x with pat => k end))
  (at level 61, pat pattern, c at next level, right associativity) : py_scope.
Notation "x <~ c ;; k" := (cbind c (fun x => k))
  (at level 61, c at next level, right associativity) : py_scope.

(** ** The collaborators of the assemblers

    What the three files import and do not define: [BaseModel] (its
    constructor, [compute_input_dim], [input_from_feature_columns],
    [linear_model], [out], the embedding dictionary), the [inputs] helper
    [combined_dnn_input], the layers, and the tensor operations of the
    framework.  [accepts] tells for each construction whether it returns or
    raises.  A layer reads the parameter store and may write it; a tensor
    operation is pure and may raise. *)

Class Framework : Type := {
  Store : Type;
  accepts : ctor_event -> result unit;
  base_compute_input_dim : list FeatureColumn -> Z -> Z;
  embedding_dict_len : list FeatureColumn -> Z;
  input_from_feature_columns :
    tensor -> list FeatureColumn -> Store -> result (list tensor * list tensor) * Store;
  combined_dnn_input : list tensor -> list tensor -> result tensor;
  torch_cat : list tensor -> Z -> result tensor;
  torch_split : tensor -> Z -> Z -> result (list tensor);
  torch_add : tensor -> tensor -> result tensor;
  linear_model : tensor -> Store -> result tensor * Store;
  dnn : tensor -> Store -> result tensor * Store;
  dnn_linear : tensor -> Store -> result tensor * Store;
  crossnet : tensor -> Store -> result tensor * Store;
  cin : tensor -> Store -> result tensor * Store;
  cin_linear : tensor -> Store -> result tensor * Store;
  SE : tensor -> Store -> result tensor * Store;
  Bilinear : tensor -> Store -> result tensor * Store;
  out : Task -> tensor -> Store -> result tensor * Store
}.

(** Instantiating a component: the call is logged, then it returns or
    raises as the collaborator decides. *)
Definition new {fw : Framework} (ev : ctor_event) : Ctor unit :=
  ([ev], accepts ev).

(** ** DCN *)

Module DCN.

Record config : Type := {
  dnn_feature_columns : list FeatureColumn;
  embedding_size : Z;
  cross_num : Z;
  dnn_hidden_units : list Z;
  task : Task
}.

(** The attributes of a constructed model that [forward] reads, and the
    width given to [dnn_linear]. *)
Record model : Type := {
  self_dnn_feature_columns : list FeatureColumn;
  self_dnn_hidden_units : list Z;
  self_cross_num : Z;
  self_task : Task;
  dnn_linear_in_feature : Z
}.

Section WithFramework.
Context {fw : Framework}.
Local Open Scope py_scope.

(** The [if]/[elif]/[elif] of [DCN.__init__] that binds the local
    [dnn_linear_in_feature]; [None] is the local left unbound. *)
Definition init_dnn_linear_in_feature (c : config) : Ctor (option Z) :=
  let input_dim := base_compute_input_dim (dnn_feature_columns c) (embedding_size c) in
  if (0 <? len (dnn_hidden_units c)) && (0 <? cross_num c) then
    last <~ clift (index_last (dnn_hidden_units c)) ;;
    cret (Some (input_dim + last))
  else if 0 <? len (dnn_hidden_units c) then
    last <~ clift (index_last (dnn_hidden_units c)) ;;
    cret (Some last)
  else if 0 <? cross_num c then
    cret (Some input_dim)
  else cret None.

(** [DCN.__init__]. *)
Definition init (c : config) : Ctor model :=
  _ <~ new (NewBaseModel [] (dnn_feature_columns c) (embedding_size c)
                         (dnn_hidden_units c) (task c)) ;;
  let input_dim := base_compute_input_dim (dnn_feature_columns c) (embedding_size c) in
  _ <~ new (NewDNN input_dim (dnn_hidden_units c)) ;;
  bound <~ init_dnn_linear_in_feature c ;;
  in_feature <~ match bound with
                | Some d => cret d
                | None => craise UnboundLocalError
                end ;;
  _ <~ new (NewLinear in_feature 1) ;;
  _ <~ new (NewCrossNet input_dim (cross_num c)) ;;
  _ <~ new (AddRegularizationLoss RegDnnWeights) ;;
  _ <~ new (AddRegularizationLoss RegDnnLinearWeight) ;;
  _ <~ new (AddRegularizationLoss RegCrossnetKernels) ;;
  cret {| self_dnn_feature_columns := dnn_feature_columns c;
          self_dnn_hidden_units := dnn_hidden_units c;
          self_cross_num := cross_num c;
          self_task := task c;
          dnn_linear_in_feature := in_feature |}.

(** The branches of [DCN.forward] that produce [final_logit]. *)
Definition final_logit (m : model) (dnn_input : tensor) : Fwd Store tensor :=
  if (0 <? len (self_dnn_hidden_units m)) && (0 <? self_cross_num m) then
    deep_out <- call c_dnn (dnn dnn_input) ;;
    cross_out <- call c_crossnet (crossnet dnn_input) ;;
    stack_out <- flift (torch_cat [cross_out; deep_out] (-1)) ;;
    call c_dnn_linear (dnn_linear stack_out)
  else if 0 <? len (self_dnn_hidden_units m) then
    deep_out <- call c_dnn (dnn dnn_input) ;;
    call c_dnn_linear (dnn_linear deep_out)
  else if 0 <? self_cross_num m then
    cross_out <- call c_crossnet (crossnet dnn_input) ;;
    call c_dnn_linear (dnn_linear cross_out)
  else fraise NotImplementedError.

(** [DCN.forward]. *)
Definition forward (m : model) (X : tensor) : Fwd Store tensor :=
  ' (sparse_embedding_list, dense_value_list) <-
    call c_input_from_feature_columns
         (input_from_feature_columns X (self_dnn_feature_columns m)) ;;
  dnn_input <- flift (combined_dnn_input sparse_embedding_list dense_value_list) ;;
  logit <- final_logit m dnn_input ;;
  call c_out (out (self_task m) logit).

(** Constructing a model and running one forward pass on it. *)
Definition run (c : config) (X : tensor) (p : Store) : result tensor :=
  match outcome (init c) with
  | Ok m => fst (forward m X {| params := p; calls := [] |})
  | Raise e => Raise e
  end.

End WithFramework.

End DCN.

(** ** FiBiNET *)

Module FiBiNET.

Import FiBiNETDims.

Record config : Type := {
  linear_feature_columns : list FeatureColumn;
  dnn_feature_columns : list FeatureColumn;
  embedding_size : Z;
  bilinear_type : string;
  reduction_ratio : Z;
  dnn_hidden_units : list Z;
  task : Task
}.

Record model : Type := {
  self_linear_feature_columns : list FeatureColumn;
  self_dnn_feature_columns : list FeatureColumn;
  self_filed_size : Z;
  self_task : Task;
  dnn_input_dim : Z;
  dnn_linear_in_features : Z
}.

Section WithFramework.
Context {fw : Framework}.
Local Open Scope py_scope.

(** [FiBiNET.__init__]. *)
Definition init (c : config) : Ctor model :=
  _ <~ new (NewBaseModel (linear_feature_columns c) (dnn_feature_columns c)
                         (embedding_size c) (dnn_hidden_units c) (task c)) ;;
  let filed_size := embedding_dict_len (dnn_feature_columns c) in
  _ <~ new (NewSENETLayer filed_size (reduction_ratio c)) ;;
  _ <~ new (NewBilinearInteraction filed_size (embedding_size c) (bilinear_type c)) ;;
  let input_dim := compute_input_dim (dnn_feature_columns c) (embedding_size c) false in
  _ <~ new (NewDNN input_dim (dnn_hidden_units c)) ;;
  last <~ clift (index_last (dnn_hidden_units c)) ;;
  _ <~ new (NewLinear last 1) ;;
  cret {| self_linear_feature_columns := linear_feature_columns c;
          self_dnn_feature_columns := dnn_feature_columns c;
          self_filed_size := filed_size;
          self_task := task c;
          dnn_input_dim := input_dim;
          dnn_linear_in_features := last |}.

(** The branches of [FiBiNET.forward] that produce [final_logit]. *)
Definition final_logit (m : model) (linear_logit dnn_logit : tensor)
  : Fwd Store tensor :=
  if (0 <? len (self_linear_feature_columns m))
     && (0 <? len (self_dnn_feature_columns m)) then
    flift (torch_add linear_logit dnn_logit)
  else if len (self_linear_feature_columns m) =? 0 then
    fret dnn_logit
  else if len (self_dnn_feature_columns m) =? 0 then
    fret linear_logit
  else fraise NotImplementedError.

(** [FiBiNET.forward]. *)
Definition forward (m : model) (X : tensor) : Fwd Store tensor :=
  ' (sparse_embedding_list, dense_value_list) <-
    call c_input_from_feature_columns
         (input_from_feature_columns X (self_dnn_feature_columns m)) ;;
  sparse_embedding_input <- flift (torch_cat sparse_embedding_list 1) ;;
  senet_output <- call c_SE (SE sparse_embedding_input) ;;
  senet_bilinear_out <- call c_Bilinear (Bilinear senet_output) ;;
  bilinear_out <- call c_Bilinear (Bilinear sparse_embedding_input) ;;
  linear_logit <- call c_linear_model (linear_model X) ;;
  both <- flift (torch_cat [senet_bilinear_out; bilinear_out] 1) ;;
  temp <- flift (torch_split both 1 1) ;;
  dnn_input <- flift (combined_dnn_input temp dense_value_list) ;;
  dnn_output <- call c_dnn (dnn dnn_input) ;;
  dnn_logit <- call c_dnn_linear (dnn_linear dnn_output) ;;
  logit <- final_logit m linear_logit dnn_logit ;;
  call c_out (out (self_task m) logit).

Definition run (c : config) (X : tensor) (p : Store) : result tensor :=
  match outcome (init c) with
  | Ok m => fst (forward m X {| params := p; calls := [] |})
  | Raise e => Raise e
  end.

End WithFramework.

End FiBiNET.

(** ** xDeepFM *)

Module xDeepFM.

Import XDeepFMDims.

Record config : Type := {
  linear_feature_columns : list FeatureColumn;
  dnn_feature_columns : list FeatureColumn;
  embedding_size : Z;
  dnn_hidden_units : list Z;
  cin_layer_size : list Z;
  cin_split_half : bool;
  task : Task
}.

Record model : Type := {
  self_dnn_feature_columns : list FeatureColumn;
  self_dnn_hidden_units : list Z;
  self_cin_layer_size : list Z;
  self_featuremap_num : Z;
  self_task : Task
}.

Section WithFramework.
Context {fw : Framework}.
Local Open Scope py_scope.

(** [xDeepFM.__init__]. *)
Definition init (c : config) : Ctor model :=
  _ <~ new (NewBaseModel (linear_feature_columns c) (dnn_feature_columns c)
                         (embedding_size c) (dnn_hidden_units c) (task c)) ;;
  let input_dim := base_compute_input_dim (dnn_feature_columns c) (embedding_size c) in
  _ <~ new (NewDNN input_dim (dnn_hidden_units c)) ;;
  last <~ clift (index_last (dnn_hidden_units c)) ;;
  _ <~ new (NewLinear last 1) ;;
  let field_num := embedding_dict_len (dnn_feature_columns c) in
  fm <~ clift (featuremap_num (cin_split_half c) (cin_layer_size c)) ;;
  _ <~ new (NewCIN field_num (cin_layer_size c) (cin_split_half c)) ;;
  _ <~ new (NewLinear fm 1) ;;
  _ <~ new (AddRegularizationLoss RegDnnWeights) ;;
  _ <~ new (AddRegularizationLoss RegDnnLinearWeight) ;;
  _ <~ new (AddRegularizationLoss RegCinWeights) ;;
  cret {| self_dnn_feature_columns := dnn_feature_columns c;
          self_dnn_hidden_units := dnn_hidden_units c;
          self_cin_layer_size := cin_layer_size c;
          self_featuremap_num := fm;
          self_task := task c |}.

(** The branches of [xDeepFM.forward], numbered in source order; the last
    is the [else] that raises. *)
Inductive branch : Type :=
| only_linear
| linear_CIN
| linear_Deep
| linear_CIN_Deep
| not_implemented.

Definition select (dnn_hidden_units cin_layer_size : list Z) : branch :=
  if (len dnn_hidden_units =? 0) && (len cin_layer_size =? 0) then only_linear
  else if (len dnn_hidden_units =? 0) && (0 <? len cin_layer_size) then linear_CIN
  else if (0 <? len dnn_hidden_units) && (len cin_layer_size =? 0) then linear_Deep
  else if (0 <? len dnn_hidden_units) && (0 <? len cin_layer_size) then linear_CIN_Deep
  else not_implemented.

Definition final_logit (m : model) (linear_logit dnn_logit cin_logit : tensor)
  : Fwd Store tensor :=
  match select (self_dnn_hidden_units m) (self_cin_layer_size m) with
  | only_linear => fret linear_logit
  | linear_CIN => flift (torch_add linear_logit cin_logit)
  | linear_Deep => flift (torch_add linear_logit dnn_logit)
  | linear_CIN_Deep =>
      s <- flift (torch_add linear_logit dnn_logit) ;;
      flift (torch_add s cin_logit)
  | not_implemented => fraise NotImplementedError
  end.

(** [xDeepFM.forward]. *)
Definition forward (m : model) (X : tensor) : Fwd Store tensor :=
  ' (sparse_embedding_list, dense_value_list) <-
    call c_input_from_feature_columns
         (input_from_feature_columns X (self_dnn_feature_columns m)) ;;
  linear_logit <- call c_linear_model (linear_model X) ;;
  cin_input <- flift (torch_cat sparse_embedding_list 1) ;;
  cin_output <- call c_cin (cin cin_input) ;;
  cin_logit <- call c_cin_linear (cin_linear cin_output) ;;
  dnn_input <- flift (combined_dnn_input sparse_embedding_list dense_value_list) ;;
  dnn_output <- call c_dnn (dnn dnn_input) ;;
  dnn_logit <- call c_dnn_linear (dnn_linear dnn_output) ;;
  logit <- final_logit m linear_logit dnn_logit cin_logit ;;
  call c_out (out (self_task m) logit).

Definition run (c : config) (X : tensor) (p : Store) : result tensor :=
  match outcome (init c) with
  | Ok m => fst (forward m X {| params := p; calls := [] |})
  | Raise e => Raise e
  end.

End WithFramework.

End xDeepFM.

(** ** The interaction layers, from the specification *)

Module Layers.

Section Scalars.

(** The scalars of the framework with their sum and product; nothing is
    assumed of them, so what follows holds of machine numbers too. *)
Variable S : Type.
Variable szero : S.
Variables sadd smul : S -> S -> S.

(** [w · x], a scalar. *)
Definition dot (w x : list S) : S :=
  fold_left (fun acc p => sadd acc (smul (fst p) (snd p))) (combine w x) szero.

(** [x * c]: every coordinate of [x] scaled by the scalar [c]. *)
Definition scale (x : list S) (c : S) : list S := map (fun xi => smul xi c) x.

(** Coordinate-wise sum and product. *)
Definition vadd (x y : list S) : list S :=
  map (fun p => sadd (fst p) (snd p)) (combine x y).

Definition hadamard (x y : list S) : list S :=
  map (fun p => smul (fst p) (snd p)) (combine x y).

(** Modelled from the spec: the [CrossNet] layer of [deepctr_torch/layers],
    which is not among the source files.  One layer maps the state [x_l] to
    [x0 * (w · x_l) + b + x_l]. *)
Definition cross_layer (x0 : list S) (wb : list S * list S) (x_l : list S)
  : list S :=
  vadd (vadd (scale x0 (dot (fst wb) x_l)) (snd wb)) x_l.

(** Modelled from the spec: [CrossNet.forward] on one batch row.  The state
    starts as [x0] and runs through the layers in order; the output is the
    last state. *)
Definition CrossNetwork (layers : list (list S * list S)) (x0 : list S) : list S :=
  fold_left (fun x_l wb => cross_layer x0 wb x_l) layers x0.

(** The state after the first [l] layers. *)
Definition cross_state (layers : list (list S * list S)) (x0 : list S) (l : nat)
  : list S :=
  CrossNetwork (firstn l layers) x0.

(** On a batch the layer acts row by row. *)
Definition CrossNetwork_batch (layers : list (list S * list S))
           (rows : list (list S)) : list (list S) :=
  map (CrossNetwork layers) rows.

(** A weight matrix, as the list of its columns. *)
Definition matrix : Type := list (list S).

(** [v · W]: one coordinate per column of [W]. *)
Definition vec_mat (v : list S) (W : matrix) : list S := map (dot v) W.

(** The three sharing policies with their weights: one [W]; one [W_i] per
    field; one [W_{i,j}] per unordered pair. *)
Inductive bilinear_weights : Type :=
| W_all (W : matrix)
| W_each (W_i : nat -> matrix)
| W_interaction (W_ij : nat -> nat -> matrix).

Definition weight_for (ws : bilinear_weights) (i j : nat) : matrix :=
  match ws with
  | W_all W => W
  | W_each W_i => W_i i
  | W_interaction W_ij => W_ij i j
  end.

(** The unordered pairs of a list, in lexicographic order. *)
Fixpoint pairs {A : Type} (l : list A) : list (A * A) :=
  match l with
  | [] => []
  | x :: rest => map (pair x) rest ++ pairs rest
  end.

(** The fields with their positions. *)
Definition indexed (fields : list (list S)) : list (nat * list S) :=
  combine (seq 0 (List.length fields)) fields.

(** [p_{i,j} = (v_i · W) ⊙ v_j]. *)
Definition bilinear_product (ws : bilinear_weights)
           (p : (nat * list S) * (nat * list S)) : list S :=
  let (iv, jv) := p in
  hadamard (vec_mat (snd iv) (weight_for ws (fst iv) (fst jv))) (snd jv).

(** Modelled from the spec: the [BilinearInteraction] layer of
    [deepctr_torch/layers], which is not among the source files, on one
    batch row: the products of all pairs [i < j], concatenated. *)
Definition BilinearInteraction (ws : bilinear_weights) (fields : list (list S))
  : list S :=
  List.concat (map (bilinear_product ws) (pairs (indexed fields))).

(** Every weight matrix that a row of [F] fields uses has [E] columns. *)
Definition square_weights (ws : bilinear_weights) (F E : nat) : Prop :=
  forall i j, (i < j < F)%nat -> List.length (weight_for ws i j) = E.

End Scalars.

(** Modelled from the spec: the output transform [PredictionLayer] of
    [deepctr_torch/layers], which is not among the source files: the
    sigmoid for the binary task, the identity for regression. *)
Definition sigmoid (x : R) : R := (1 / (1 + exp (- x)))%R.

Definition PredictionLayer (task : Task) (logit : tensor) : tensor :=
  match task with
  | binary => tmap sigmoid logit
  | regression => logit
  end.

End Layers.

(** ** What the properties speak of *)

(** The computation leaves the parameter store as it found it. *)
Definition preserves_params {Store A : Type} (f : Fwd Store A) : Prop :=
  forall st, params (snd (f st)) = params st.

(** The computation only adds calls of components that satisfy [ok]. *)
Definition calls_only (ok : component -> bool) {Store A : Type}
           (f : Fwd Store A) : Prop :=
  forall st, exists l, calls (snd (f st)) = calls st ++ l /\ forallb ok l = true.

(** The result and the store reached depend on the store alone, not on the
    calls logged before. *)
Definition reads_params_only {Store A : Type} (f : Fwd Store A) : Prop :=
  forall st1 st2,
    params st1 = params st2 ->
    fst (f st1) = fst (f st2) /\ params (snd (f st1)) = params (snd (f st2)).

(** The targets for which a construction has registered a regularization
    loss, in order. *)
Fixpoint registered (tr : list ctor_event) : list reg_target :=
  match tr with
  | [] => []
  | AddRegularizationLoss target :: rest => target :: registered rest
  | _ :: rest => registered rest
  end.

(** A component other than the cross network. *)
Definition not_crossnet (c : component) : bool := negb (is_crossnet c).

(** Every collaborator accepts every construction. *)
Definition accepting (fw : Framework) : Prop :=
  forall ev : ctor_event, accepts ev = Ok tt.

(** No layer of the framework writes the parameter store. *)
Definition read_only (fw : Framework) : Prop :=
  (forall X cols p, snd (input_from_feature_columns X cols p) = p)
  /\ (forall x p, snd (linear_model x p) = p)
  /\ (forall x p, snd (dnn x p) = p)
  /\ (forall x p, snd (dnn_linear x p) = p)
  /\ (forall x p, snd (crossnet x p) = p)
  /\ (forall x p, snd (cin x p) = p)
  /\ (forall x p, snd (cin_linear x p) = p)
  /\ (forall x p, snd (SE x p) = p)
  /\ (forall x p, snd (Bilinear x p) = p)
  /\ (forall task x p, snd (out task x p) = p).

(** [linear_model] and the two [nn.Linear(_, 1)] layers answer with one
    scalar per row, and the sum of two such tensors is one. *)
Definition logits_are_columns (fw : Framework) : Prop :=
  (forall x p y p', linear_model x p = (Ok y, p') -> is_column y = true)
  /\ (forall x p y p', dnn_linear x p = (Ok y, p') -> is_column y = true)
  /\ (forall x p y p', cin_linear x p = (Ok y, p') -> is_column y = true)
  /\ (forall a b c, torch_add a b = Ok c ->
                    is_column a = true -> is_column b = true -> is_column c = true).

(** The output transform of the framework is the one of the specification. *)
Definition out_is_PredictionLayer (fw : Framework) : Prop :=
  forall task x p, out task x p = (Ok (Layers.PredictionLayer task x), p).

(** ** A small framework to run the assemblers on

    Every construction is accepted; the store is a single integer that no
    layer writes; the input extraction yields the batch as its only sparse
    embedding; the towers are the identity; the three layers that produce a
    logit answer with a fixed [(1, 1)] column; tensors are added scalar by
    scalar and must agree in shape; the output transform is the
    [PredictionLayer] of the specification. *)

Module Toy.

Fixpoint tensor_add (a b : tensor) : result tensor :=
  match a, b with
  | Scalar x, Scalar y => Ok (Scalar (x + y)%R)
  | Stack xs, Stack ys =>
      (fix add_all (xs ys : list tensor) : result tensor :=
         match xs, ys with
         | [], [] => Ok (Stack [])
         | x :: xs', y :: ys' =>
             match tensor_add x y, add_all xs' ys' with
             | Ok z, Ok (Stack zs) => Ok (Stack (z :: zs))
             | Raise e, _ => Raise e
             | _, Raise e => Raise e
             | _, _ => Raise RuntimeError
             end
         | _, _ => Raise RuntimeError
         end) xs ys
  | _, _ => Raise RuntimeError
  end.

Definition column (v : R) : tensor := Stack [Stack [Scalar v]].

Definition pure_layer {A : Type} (r : result A) (p : Z) : result A * Z := (r, p).

Definition framework : Framework := {|
  Store := Z;
  accepts := fun _ => Ok tt;
  base_compute_input_dim := fun cols E =>
    len (filter is_SparseFeat cols) * E + sum (map dimension (filter is_DenseFeat cols));
  embedding_dict_len := fun cols => len (filter is_SparseFeat cols);
  input_from_feature_columns := fun X _ => pure_layer (Ok ([X], []));
  combined_dnn_input := fun sparse dense => Ok (Stack (sparse ++ dense));
  torch_cat := fun ts _ => Ok (Stack ts);
  torch_split := fun t _ _ => Ok [t];
  torch_add := tensor_add;
  linear_model := fun _ => pure_layer (Ok (column 0));
  dnn := fun x => pure_layer (Ok x);
  dnn_linear := fun _ => pure_layer (Ok (column 1));
  crossnet := fun x => pure_layer (Ok x);
  cin := fun x => pure_layer (Ok x);
  cin_linear := fun _ => pure_layer (Ok (column 2));
  SE := fun x => pure_layer (Ok x);
  Bilinear := fun x => pure_layer (Ok x);
  out := fun task x => pure_layer (Ok (Layers.PredictionLayer task x))
|}.

Definition two_sparse : list FeatureColumn :=
  [SparseFeat "C1" 10; SparseFeat "C2" 10].

(** A batch of one row with two scalars. *)
Definition X0 : tensor := Stack [Stack [Scalar 1; Scalar 2]].

Definition state0 : fstate Z := {| params := 7; calls := [] |}.

(** Zero interaction layers and no hidden units. *)
Definition dcn_zero : DCN.config := {|
  DCN.dnn_feature_columns := two_sparse;
  DCN.embedding_size := 4;
  DCN.cross_num := 0;
  DCN.dnn_hidden_units := [];
  DCN.task := binary
|}.

(** The configuration of [tests/models/DCN_test.py]. *)
Definition dcn_only_deep : DCN.config := {|
  DCN.dnn_feature_columns := two_sparse;
  DCN.embedding_size := 8;
  DCN.cross_num := 0;
  DCN.dnn_hidden_units := [32];
  DCN.task := binary
|}.

Definition dcn_deep_cross : DCN.config := {|
  DCN.dnn_feature_columns := two_sparse;
  DCN.embedding_size := 8;
  DCN.cross_num := 2;
  DCN.dnn_hidden_units := [128; 128];
  DCN.task := binary
|}.

Definition fibinet_zero : FiBiNET.config := {|
  FiBiNET.linear_feature_columns := two_sparse;
  FiBiNET.dnn_feature_columns := two_sparse;
  FiBiNET.embedding_size := 4;
  FiBiNET.bilinear_type := "interaction";
  FiBiNET.reduction_ratio := 3;
  FiBiNET.dnn_hidden_units := [];
  FiBiNET.task := binary
|}.

Definition fibinet_default : FiBiNET.config := {|
  FiBiNET.linear_feature_columns := two_sparse;
  FiBiNET.dnn_feature_columns := two_sparse;
  FiBiNET.embedding_size := 4;
  FiBiNET.bilinear_type := "interaction";
  FiBiNET.reduction_ratio := 3;
  FiBiNET.dnn_hidden_units := [8; 8];
  FiBiNET.task := binary
|}.

Definition xdeepfm_zero : xDeepFM.config := {|
  xDeepFM.linear_feature_columns := two_sparse;
  xDeepFM.dnn_feature_columns := two_sparse;
  xDeepFM.embedding_size := 4;
  xDeepFM.dnn_hidden_units := [];
  xDeepFM.cin_layer_size := [];
  xDeepFM.cin_split_half := true;
  xDeepFM.task := binary
|}.

Definition xdeepfm_4_4 (split_half : bool) : xDeepFM.config := {|
  xDeepFM.linear_feature_columns := two_sparse;
  xDeepFM.dnn_feature_columns := two_sparse;
  xDeepFM.embedding_size := 4;
  xDeepFM.dnn_hidden_units := [8];
  xDeepFM.cin_layer_size := [4; 4];
  xDeepFM.cin_split_half := split_half;
  xDeepFM.task := binary
|}.

Definition xdeepfm_no_cin : xDeepFM.config := {|
  xDeepFM.linear_feature_columns := two_sparse;
  xDeepFM.dnn_feature_columns := two_sparse;
  xDeepFM.embedding_size := 4;
  xDeepFM.dnn_hidden_units := [8];
  xDeepFM.cin_layer_size := [];
  xDeepFM.cin_split_half := true;
  xDeepFM.task := binary
|}.

(** Models as the constructors leave them, and two that no constructor
    yields: the forward passes accept any model. *)
Definition dcn_model (cross_num : Z) (dnn_hidden_units : list Z) : DCN.model := {|
  DCN.self_dnn_feature_columns := two_sparse;
  DCN.self_dnn_hidden_units := dnn_hidden_units;
  DCN.self_cross_num := cross_num;
  DCN.self_task := binary;
  DCN.dnn_linear_in_feature := 32
|}.

Definition fibinet_model (linear_feature_columns : list FeatureColumn)
  : FiBiNET.model := {|
  FiBiNET.self_linear_feature_columns := linear_feature_columns;
  FiBiNET.self_dnn_feature_columns := two_sparse;
  FiBiNET.self_filed_size := 2;
  FiBiNET.self_task := binary;
  FiBiNET.dnn_input_dim := 8;
  FiBiNET.dnn_linear_in_features := 8
|}.

Definition xdeepfm_model (dnn_hidden_units cin_layer_size : list Z)
  : xDeepFM.model := {|
  xDeepFM.self_dnn_feature_columns := two_sparse;
  xDeepFM.self_dnn_hidden_units := dnn_hidden_units;
  xDeepFM.self_cin_layer_size := cin_layer_size;
  xDeepFM.self_featuremap_num := 6;
  xDeepFM.self_task := binary
|}.

End Toy.

(** * Properties *)

(** ** Python sequences *)

Section PySequences.

Lemma sum_from (xs : list Z) (a : Z) : fold_left Z.add xs a = a + sum xs.
Proof.
  unfold sum. revert a.
  induction xs as [|x xs IH]; intros a; simpl.
  - lia.
  - rewrite (IH (a + x)), (IH x). lia.
Qed.

Lemma sum_cons (x : Z) (xs : list Z) : sum (x :: xs) = x + sum xs.
Proof. unfold sum at 1. simpl. apply sum_from. Qed.

Lemma sum_app (xs ys : list Z) : sum (xs ++ ys) = sum xs + sum ys.
Proof.
  induction xs as [|x xs IH]; simpl.
  - reflexivity.
  - rewrite !sum_cons, IH. lia.
Qed.

Lemma index_last_snoc (xs : list Z) (x : Z) : index_last (xs ++ [x]) = Ok x.
Proof.
  induction xs as [|y ys IH]; simpl.
  - reflexivity.
  - destruct (ys ++ [x]) eqn:E.
    + destruct ys; discriminate.
    + exact IH.
Qed.

Lemma index_last_nonempty (xs : list Z) :
  xs <> [] -> exists x, index_last xs = Ok x.
Proof.
  intros Hne. destruct (exists_last Hne) as [ys [x ->]].
  exists x. apply index_last_snoc.
Qed.

Lemma index_last_ok_nonempty (xs : list Z) (x : Z) :
  index_last xs = Ok x -> xs <> [].
Proof. destruct xs; [discriminate | congruence]. Qed.

Lemma slice_init_snoc (xs : list Z) (x : Z) : slice_init (xs ++ [x]) = xs.
Proof. unfold slice_init. apply removelast_last. Qed.

Lemma len_nonneg {A : Type} (xs : list A) : 0 <= len xs.
Proof. unfold len. lia. Qed.

Lemma len_pos_nonempty {A : Type} (xs : list A) :
  (0 <? len xs) = true <-> xs <> [].
Proof.
  destruct xs as [|x xs]; unfold len; simpl; split; intros H.
  - discriminate.
  - contradiction.
  - discriminate.
  - reflexivity.
Qed.

Lemma len_zero_empty {A : Type} (xs : list A) :
  (len xs =? 0) = true <-> xs = [].
Proof.
  destruct xs as [|x xs]; unfold len; simpl; split; intros H;
    try reflexivity; discriminate.
Qed.

Lemma len_pos_false {A : Type} (xs : list A) :
  (0 <? len xs) = false <-> xs = [].
Proof.
  destruct xs as [|x xs]; unfold len; simpl; split; intros H;
    try reflexivity; discriminate.
Qed.

End PySequences.

(** ** Constructions *)

Section Constructions.

Lemma outcome_cbind {A B : Type} (c : Ctor A) (k : A -> Ctor B) :
  outcome (cbind c k)
  = match outcome c with
    | Ok a => outcome (k a)
    | Raise e => Raise e
    end.
Proof.
  destruct c as [log [a|e]]; simpl; [|reflexivity].
  destruct (k a); reflexivity.
Qed.

Lemma trace_cbind {A B : Type} (c : Ctor A) (k : A -> Ctor B) :
  trace (cbind c k)
  = match outcome c with
    | Ok a => trace c ++ trace (k a)
    | Raise e => trace c
    end.
Proof.
  destruct c as [log [a|e]]; simpl; [|reflexivity].
  destruct (k a); reflexivity.
Qed.

Lemma cbind_ok {A B : Type} (c : Ctor A) (k : A -> Ctor B)
      (tr : list ctor_event) (b : B) :
  cbind c k = (tr, Ok b) ->
  exists tr1 a tr2, c = (tr1, Ok a) /\ k a = (tr2, Ok b) /\ tr = tr1 ++ tr2.
Proof.
  destruct c as [log [a|e]]; simpl; [|discriminate].
  destruct (k a) as [log' r] eqn:Ek. intros H. inversion H; subst.
  exists log, a, log'. auto.
Qed.

Lemma new_ok {fw : Framework} (ev : ctor_event) (tr : list ctor_event) (u : unit) :
  new ev = (tr, Ok u) -> tr = [ev] /\ accepts ev = Ok tt.
Proof.
  unfold new. intros H. inversion H; subst. destruct u. auto.
Qed.

Lemma clift_ok {A : Type} (r : result A) (tr : list ctor_event) (a : A) :
  clift r = (tr, Ok a) -> tr = [] /\ r = Ok a.
Proof. unfold clift. intros H. inversion H; subst. auto. Qed.

Lemma cret_ok {A : Type} (x a : A) (tr : list ctor_event) :
  cret x = (tr, Ok a) -> tr = [] /\ x = a.
Proof. unfold cret. intros H. inversion H; subst. auto. Qed.

End Constructions.

(** Taking a successful construction apart, one step at a time. *)
Ltac ctor_inv H :=
  repeat match type of H with
  | cbind _ _ = (_, Ok _) =>
      let tr1 := fresh "tr" in
      let a := fresh "a" in
      let tr2 := fresh "tr" in
      let H1 := fresh "Hstep" in
      apply cbind_ok in H;
      destruct H as [tr1 [a [tr2 [H1 [H ?]]]]];
      cbv beta in H;
      first [ apply new_ok in H1; destruct H1 as [? H1]
            | apply clift_ok in H1; destruct H1 as [? H1]
            | idtac ]
  | cret _ = (_, Ok _) => apply cret_ok in H; destruct H as [? H]
  end.

(** ** The output width of the compressed interaction network *)

Section FeaturemapNum.

Import XDeepFMDims.

Lemma featuremap_num_split_half (Hs : list Z) (Hk : Z) :
  featuremap_num true (Hs ++ [Hk]) = Ok (sum Hs / 2 + Hk).
Proof.
  unfold featuremap_num.
  rewrite slice_init_snoc, index_last_snoc. reflexivity.
Qed.

Lemma featuremap_num_whole (H : list Z) : featuremap_num false H = Ok (sum H).
Proof. reflexivity. Qed.

Lemma featuremap_num_empty_split_half : featuremap_num true [] = Raise IndexError.
Proof. reflexivity. Qed.

(** With every layer size even, half of the sum is the sum of the halves:
    the widths that the layers before the last forward to the output. *)
Lemma half_sum_even (Hs : list Z) :
  Forall (fun h => h mod 2 = 0) Hs ->
  sum Hs / 2 = sum (map (fun h => h / 2) Hs).
Proof.
  induction 1 as [|h Hs Hh _ IH]; simpl.
  - reflexivity.
  - rewrite !sum_cons, <- IH.
    rewrite (Z.div_mod h 2) at 1 by lia. rewrite Hh, Z.add_0_r.
    rewrite Z.mul_comm, Z.add_comm, Z.div_add by lia. lia.
Qed.

End FeaturemapNum.



(** ** Construction with an empty list of layer sizes *)

Section EmptyLists.

Context {fw : Framework}.

Lemma xDeepFM_init_hidden_units (c : xDeepFM.config)
      (tr : list ctor_event) (m : xDeepFM.model) :
  xDeepFM.init c = (tr, Ok m) ->
  xDeepFM.self_dnn_hidden_units m = xDeepFM.dnn_hidden_units c
  /\ xDeepFM.self_cin_layer_size m = xDeepFM.cin_layer_size c
  /\ xDeepFM.dnn_hidden_units c <> []
  /\ (xDeepFM.cin_split_half c = true -> xDeepFM.cin_layer_size c <> []).
Proof.
  unfold xDeepFM.init. intros H. ctor_inv H. subst. simpl.
  repeat split.
  - eapply index_last_ok_nonempty; eassumption.
  - intros Hsplit Hempty.
    rewrite Hsplit, Hempty in Hstep3. discriminate.
Qed.

Lemma FiBiNET_init_hidden_units (c : FiBiNET.config)
      (tr : list ctor_event) (m : FiBiNET.model) :
  FiBiNET.init c = (tr, Ok m) -> FiBiNET.dnn_hidden_units c <> [].
Proof.
  unfold FiBiNET.init. intros H. ctor_inv H.
  eapply index_last_ok_nonempty; eassumption.
Qed.

Lemma not_ok_outcome {A : Type} (c : Ctor A) :
  (forall tr a, c = (tr, Ok a) -> False) -> is_ok (outcome c) = false.
Proof.
  destruct c as [tr [a|e]]; intros H; [|reflexivity].
  exfalso. eapply H. reflexivity.
Qed.

Lemma xDeepFM_init_empty_hidden (c : xDeepFM.config) :
  accepting fw -> xDeepFM.dnn_hidden_units c = [] ->
  outcome (xDeepFM.init c) = Raise IndexError.
Proof.
  intros Hacc Hempty. unfold xDeepFM.init, new.
  rewrite Hempty, !Hacc. reflexivity.
Qed.

Lemma FiBiNET_init_empty_hidden (c : FiBiNET.config) :
  accepting fw -> FiBiNET.dnn_hidden_units c = [] ->
  outcome (FiBiNET.init c) = Raise IndexError.
Proof.
  intros Hacc Hempty. unfold FiBiNET.init, new.
  rewrite Hempty, !Hacc. reflexivity.
Qed.

Lemma xDeepFM_init_empty_cin (c : xDeepFM.config) :
  accepting fw ->
  xDeepFM.cin_split_half c = true -> xDeepFM.cin_layer_size c = [] ->
  outcome (xDeepFM.init c) = Raise IndexError.
Proof.
  intros Hacc Hsplit Hempty.
  destruct (xDeepFM.dnn_hidden_units c) as [|h hs] eqn:Hhidden.
  - apply xDeepFM_init_empty_hidden; assumption.
  - destruct (@index_last_nonempty (h :: hs)) as [last Hlast]; [discriminate|].
    unfold xDeepFM.init, new.
    rewrite Hhidden, Hsplit, Hempty, Hlast, !Hacc.
    cbn. rewrite Hacc. reflexivity.
Qed.

End EmptyLists.


Lemma toy_accepting : accepting Toy.framework.
Proof. intros ev. reflexivity. Qed.


(** ** Forward passes: what they write and whom they call *)

Section ForwardPasses.

Context {Store : Type}.

Lemma preserves_fret {A : Type} (a : A) : preserves_params (fret (Store := Store) a).
Proof. intros st. reflexivity. Qed.

Lemma preserves_fraise {A : Type} (e : exn) :
  preserves_params (fraise (Store := Store) (A := A) e).
Proof. intros st. reflexivity. Qed.

Lemma preserves_flift {A : Type} (r : result A) :
  preserves_params (flift (Store := Store) r).
Proof. intros st. reflexivity. Qed.

Lemma preserves_call {A : Type} (c : component) (layer : Store -> result A * Store) :
  (forall p, snd (layer p) = p) -> preserves_params (call c layer).
Proof.
  intros Hlayer st. unfold call.
  specialize (Hlayer (params st)). destruct (layer (params st)). exact Hlayer.
Qed.

Lemma preserves_fbind {A B : Type} (f : Fwd Store A) (k : A -> Fwd Store B) :
  preserves_params f -> (forall a, preserves_params (k a)) ->
  preserves_params (fbind f k).
Proof.
  intros Hf Hk st. unfold fbind.
  specialize (Hf st). destruct (f st) as [[a|e] st1]; simpl in *.
  - rewrite Hk. exact Hf.
  - exact Hf.
Qed.

Lemma calls_only_fret (ok : component -> bool) {A : Type} (a : A) :
  calls_only ok (fret (Store := Store) a).
Proof. intros st. exists []. simpl. rewrite app_nil_r. auto. Qed.

Lemma calls_only_fraise (ok : component -> bool) {A : Type} (e : exn) :
  calls_only ok (fraise (Store := Store) (A := A) e).
Proof. intros st. exists []. simpl. rewrite app_nil_r. auto. Qed.

Lemma calls_only_flift (ok : component -> bool) {A : Type} (r : result A) :
  calls_only ok (flift (Store := Store) r).
Proof. intros st. exists []. simpl. rewrite app_nil_r. auto. Qed.

Lemma calls_only_call (ok : component -> bool) {A : Type} (c : component)
      (layer : Store -> result A * Store) :
  ok c = true -> calls_only ok (call c layer).
Proof.
  intros Hc st. exists [c]. unfold call.
  destruct (layer (params st)). simpl. rewrite Hc. auto.
Qed.

Lemma calls_only_fbind (ok : component -> bool) {A B : Type}
      (f : Fwd Store A) (k : A -> Fwd Store B) :
  calls_only ok f -> (forall a, calls_only ok (k a)) ->
  calls_only ok (fbind f k).
Proof.
  intros Hf Hk st. unfold fbind.
  destruct (Hf st) as [l1 [E1 Hl1]]. destruct (f st) as [[a|e] st1]; simpl in *.
  - destruct (Hk a st1) as [l2 [E2 Hl2]].
    exists (l1 ++ l2). rewrite E2, E1, app_assoc, forallb_app, Hl1, Hl2. auto.
  - exists l1. auto.
Qed.

Lemma reads_fret {A : Type} (a : A) : reads_params_only (fret (Store := Store) a).
Proof. intros st1 st2 H. simpl. auto. Qed.

Lemma reads_fraise {A : Type} (e : exn) :
  reads_params_only (fraise (Store := Store) (A := A) e).
Proof. intros st1 st2 H. simpl. auto. Qed.

Lemma reads_flift {A : Type} (r : result A) :
  reads_params_only (flift (Store := Store) r).
Proof. intros st1 st2 H. simpl. auto. Qed.

Lemma reads_call {A : Type} (c : component) (layer : Store -> result A * Store) :
  reads_params_only (call c layer).
Proof.
  intros st1 st2 H. unfold call. rewrite H.
  destruct (layer (params st2)). simpl. auto.
Qed.

Lemma reads_fbind {A B : Type} (f : Fwd Store A) (k : A -> Fwd Store B) :
  reads_params_only f -> (forall a, reads_params_only (k a)) ->
  reads_params_only (fbind f k).
Proof.
  intros Hf Hk st1 st2 H. unfold fbind.
  destruct (Hf st1 st2 H) as [Hr Hp].
  destruct (f st1) as [[a1|e1] st1'], (f st2) as [[a2|e2] st2']; simpl in *;
    try discriminate.
  - inversion Hr; subst. apply Hk. exact Hp.
  - inversion Hr; subst. auto.
Qed.

Lemma fbind_ok {A B : Type} (f : Fwd Store A) (k : A -> Fwd Store B)
      (st st' : fstate Store) (b : B) :
  fbind f k st = (Ok b, st') ->
  exists a st1, f st = (Ok a, st1) /\ k a st1 = (Ok b, st').
Proof.
  unfold fbind. destruct (f st) as [[a|e] st1]; [|discriminate].
  intros H. exists a, st1. auto.
Qed.

Lemma call_ok {A : Type} (c : component) (layer : Store -> result A * Store)
      (st st' : fstate Store) (a : A) :
  call c layer st = (Ok a, st') ->
  exists p', layer (params st) = (Ok a, p').
Proof.
  unfold call. destruct (layer (params st)) as [r p'].
  intros H. inversion H; subst. exists p'. reflexivity.
Qed.

Lemma flift_ok {A : Type} (r : result A) (st st' : fstate Store) (a : A) :
  flift r st = (Ok a, st') -> r = Ok a /\ st' = st.
Proof. unfold flift. intros H. inversion H; subst. auto. Qed.

Lemma fret_ok {A : Type} (x a : A) (st st' : fstate Store) :
  fret x st = (Ok a, st') -> x = a /\ st' = st.
Proof. unfold fret. intros H. inversion H; subst. auto. Qed.

End ForwardPasses.

(** One step of a proof that a forward pass keeps a property that every
    step of it keeps. *)
Ltac fwd_step :=
  first
    [ apply preserves_fbind; [|intros ?]
    | apply preserves_fret | apply preserves_fraise | apply preserves_flift
    | apply preserves_call; solve [auto]
    | apply calls_only_fbind; [|intros ?]
    | apply calls_only_fret | apply calls_only_fraise | apply calls_only_flift
    | apply calls_only_call; reflexivity
    | apply reads_fbind; [|intros ?]
    | apply reads_fret | apply reads_fraise | apply reads_flift
    | apply reads_call
    | match goal with
      | |- preserves_params (match ?x with _ => _ end) => destruct x
      | |- calls_only _ (match ?x with _ => _ end) => destruct x
      | |- reads_params_only (match ?x with _ => _ end) => destruct x
      end ].

(** Taking a forward pass that returned apart, one step at a time. *)
Ltac fwd_inv H :=
  repeat match type of H with
  | fbind _ _ _ = (Ok _, _) =>
      let a := fresh "a" in
      let st1 := fresh "st" in
      let H1 := fresh "Hstep" in
      apply fbind_ok in H;
      destruct H as [a [st1 [H1 H]]];
      cbv beta in H;
      try (destruct a as [? ?]);
      first [ apply flift_ok in H1; destruct H1 as [H1 ?]; subst st1
            | idtac ]
  end.

(** ** The frame of a forward pass *)


Lemma toy_read_only : read_only Toy.framework.
Proof. repeat split. Qed.


(** ** DCN without cross layers *)

Lemma DCN_forward_without_cross_layers {fw : Framework} (m : DCN.model) (X : tensor) :
  DCN.self_cross_num m = 0 -> calls_only not_crossnet (DCN.forward m X).
Proof.
  intros Hzero. unfold DCN.forward, DCN.final_logit.
  rewrite Hzero. change (0 <? 0) with false. rewrite andb_false_r.
  repeat fwd_step.
Qed.

(** C3, as the code has it.  A constructed DCN has instantiated [CrossNet]
    with [layer_num = cross_num], also when [cross_num = 0]; when
    [cross_num = 0] a forward pass calls no cross network. *)
Theorem DCN_zero_cross_layers_instantiated_but_skipped {fw : Framework}
        (c : DCN.config) (tr : list ctor_event) (m : DCN.model) :
  DCN.init c = (tr, Ok m) ->
  In (NewCrossNet
        (base_compute_input_dim (DCN.dnn_feature_columns c) (DCN.embedding_size c))
        (DCN.cross_num c)) tr
  /\ (DCN.cross_num c = 0 ->
      forall (X : tensor) (st : fstate Store),
      exists l, calls (snd (DCN.forward m X st)) = calls st ++ l
                /\ forallb not_crossnet l = true).
Proof.
  unfold DCN.init. intros H. ctor_inv H. subst. split.
  - apply in_or_app. right. apply in_or_app. right.
    apply in_or_app. right. apply in_or_app. right.
    apply in_or_app. right. simpl. auto.
  - intros Hzero X. apply DCN_forward_without_cross_layers. exact Hzero.
Qed.

Lemma DCN_zero_cross_layers_instantiated_but_skipped_witness :
  exists tr m,
    DCN.init (fw := Toy.framework) Toy.dcn_only_deep = (tr, Ok m)
    /\ In (NewCrossNet 16 0) tr
    /\ exists l, calls (snd (DCN.forward (fw := Toy.framework) m Toy.X0 Toy.state0))
                 = [] ++ l
                 /\ forallb not_crossnet l = true.
Proof.
  eexists. eexists. split; [reflexivity|].
  destruct (@DCN_zero_cross_layers_instantiated_but_skipped Toy.framework
              Toy.dcn_only_deep _ _ eq_refl) as [Hin Hcalls].
  split; [exact Hin|].
  exact (Hcalls eq_refl Toy.X0 Toy.state0).
Defined.

(** C3, as stated, fails: with the configuration of the repository's own
    test ([cross_num = 0], one hidden layer) the construction succeeds and
    has instantiated [CrossNet]. *)
Lemma DCN_instantiates_CrossNet_with_zero_layers :
  DCN.cross_num Toy.dcn_only_deep = 0
  /\ is_ok (outcome (DCN.init (fw := Toy.framework) Toy.dcn_only_deep)) = true
  /\ existsb is_NewCrossNet
             (trace (DCN.init (fw := Toy.framework) Toy.dcn_only_deep)) = true.
Proof. repeat split. Qed.

(** ** The branches that produce the final logit *)

Section FinalLogit.

Context {fw : Framework}.
Local Open Scope py_scope.

Lemma xDeepFM_select_total (dnn_hidden_units cin_layer_size : list Z) :
  xDeepFM.select dnn_hidden_units cin_layer_size <> xDeepFM.not_implemented.
Proof.
  unfold xDeepFM.select.
  destruct dnn_hidden_units, cin_layer_size; simpl; discriminate.
Qed.

Lemma xDeepFM_select_cases (dnn_hidden_units cin_layer_size : list Z) :
  xDeepFM.select dnn_hidden_units cin_layer_size
  = match dnn_hidden_units, cin_layer_size with
    | [], [] => xDeepFM.only_linear
    | [], _ :: _ => xDeepFM.linear_CIN
    | _ :: _, [] => xDeepFM.linear_Deep
    | _ :: _, _ :: _ => xDeepFM.linear_CIN_Deep
    end.
Proof.
  unfold xDeepFM.select.
  destruct dnn_hidden_units, cin_layer_size; reflexivity.
Qed.

Lemma FiBiNET_final_logit_cases (m : FiBiNET.model) (linear_logit dnn_logit : tensor) :
  FiBiNET.final_logit m linear_logit dnn_logit
  = match FiBiNET.self_linear_feature_columns m,
          FiBiNET.self_dnn_feature_columns m with
    | [], _ => fret dnn_logit
    | _ :: _, [] => fret linear_logit
    | _ :: _, _ :: _ => flift (torch_add linear_logit dnn_logit)
    end.
Proof.
  unfold FiBiNET.final_logit.
  destruct (FiBiNET.self_linear_feature_columns m),
           (FiBiNET.self_dnn_feature_columns m); reflexivity.
Qed.

Lemma DCN_forward_ok (m : DCN.model) (X : tensor) (st st' : fstate Store) (y : tensor) :
  DCN.forward m X st = (Ok y, st') ->
  exists dnn_input st1 logit st2,
    DCN.final_logit m dnn_input st1 = (Ok logit, st2)
    /\ call c_out (out (DCN.self_task m) logit) st2 = (Ok y, st').
Proof.
  unfold DCN.forward. intros H. fwd_inv H.
  do 4 eexists. split; eassumption.
Qed.

Lemma FiBiNET_forward_ok (m : FiBiNET.model) (X : tensor) (st st' : fstate Store)
      (y : tensor) :
  FiBiNET.forward m X st = (Ok y, st') ->
  exists linear_logit dnn_output p dnn_logit p' st1 logit st2,
    dnn_linear dnn_output p = (Ok dnn_logit, p')
    /\ FiBiNET.final_logit m linear_logit dnn_logit st1 = (Ok logit, st2)
    /\ call c_out (out (FiBiNET.self_task m) logit) st2 = (Ok y, st')
    /\ exists q q', linear_model X q = (Ok linear_logit, q').
Proof.
  unfold FiBiNET.forward. intros H. fwd_inv H.
  repeat match goal with
         | Hc : call _ _ _ = (Ok _, _) |- _ =>
             lazymatch type of Hc with
             | call c_out _ _ = _ => fail
             | _ => apply call_ok in Hc; destruct Hc as [? Hc]
             end
         end.
  do 8 eexists. repeat split; eauto.
Qed.

Lemma xDeepFM_forward_ok (m : xDeepFM.model) (X : tensor) (st st' : fstate Store)
      (y : tensor) :
  xDeepFM.forward m X st = (Ok y, st') ->
  exists linear_logit dnn_logit cin_logit st1 logit st2,
    xDeepFM.final_logit m linear_logit dnn_logit cin_logit st1 = (Ok logit, st2)
    /\ call c_out (out (xDeepFM.self_task m) logit) st2 = (Ok y, st')
    /\ (exists q q', linear_model X q = (Ok linear_logit, q'))
    /\ (exists x q q', dnn_linear x q = (Ok dnn_logit, q'))
    /\ (exists x q q', cin_linear x q = (Ok cin_logit, q')).
Proof.
  unfold xDeepFM.forward. intros H. fwd_inv H.
  repeat match goal with
         | Hc : call _ _ _ = (Ok _, _) |- _ =>
             lazymatch type of Hc with
             | call c_out _ _ = _ => fail
             | _ => apply call_ok in Hc; destruct Hc as [? Hc]
             end
         end.
  do 6 eexists. repeat split; eauto.
Qed.

End FinalLogit.



(** ** Zero interaction layers and no hidden units *)

(** C1, as the code has it.  In a forward pass of DCN on a model with
    [cross_num = 0] and an empty [dnn_hidden_units], once the inputs are
    extracted and combined, [NotImplementedError] is raised; in xDeepFM
    empty [dnn_hidden_units] and [cin_layer_size] select the branch whose
    final logit is [linear_logit], and no lists select the branch that
    raises; FiBiNET selects its final logit by its two lists of feature
    columns and never the branch that raises. *)
Theorem zero_layers_in_forward {fw : Framework} :
  (forall (m : DCN.model) (X : tensor) (st st1 : fstate Store)
          (sparse dense : list tensor) (dnn_input : tensor),
      DCN.self_cross_num m = 0 ->
      DCN.self_dnn_hidden_units m = [] ->
      call c_input_from_feature_columns
           (input_from_feature_columns X (DCN.self_dnn_feature_columns m)) st
      = (Ok (sparse, dense), st1) ->
      combined_dnn_input sparse dense = Ok dnn_input ->
      DCN.forward m X st = (Raise NotImplementedError, st1))
  /\ (forall (m : xDeepFM.model) (linear_logit dnn_logit cin_logit : tensor),
         xDeepFM.self_dnn_hidden_units m = [] ->
         xDeepFM.self_cin_layer_size m = [] ->
         xDeepFM.final_logit m linear_logit dnn_logit cin_logit = fret linear_logit)
  /\ (forall dnn_hidden_units cin_layer_size : list Z,
         xDeepFM.select dnn_hidden_units cin_layer_size <> xDeepFM.not_implemented)
  /\ (forall (m : FiBiNET.model) (linear_logit dnn_logit : tensor),
         FiBiNET.final_logit m linear_logit dnn_logit
         = flift (torch_add linear_logit dnn_logit)
         \/ FiBiNET.final_logit m linear_logit dnn_logit = fret dnn_logit
         \/ FiBiNET.final_logit m linear_logit dnn_logit = fret linear_logit).
Proof.
  repeat apply conj.
  - intros m X st st1 sparse dense x Hcross Hhidden Hin Hcomb.
    unfold DCN.forward, fbind. rewrite Hin. unfold flift. rewrite Hcomb.
    unfold DCN.final_logit. rewrite Hcross, Hhidden. reflexivity.
  - intros m l d c Hh Hc. unfold xDeepFM.final_logit. rewrite Hh, Hc. reflexivity.
  - apply xDeepFM_select_total.
  - intros m l d. rewrite FiBiNET_final_logit_cases.
    destruct (FiBiNET.self_linear_feature_columns m),
             (FiBiNET.self_dnn_feature_columns m); auto.
Qed.

Lemma zero_layers_in_forward_witness :
  DCN.forward (fw := Toy.framework) (Toy.dcn_model 0 []) Toy.X0 Toy.state0
  = (Raise NotImplementedError,
     {| params := 7; calls := [c_input_from_feature_columns] |})
  /\ xDeepFM.final_logit (fw := Toy.framework) (Toy.xdeepfm_model [] [])
                         (Toy.column 0) (Toy.column 1) (Toy.column 2)
     = fret (Toy.column 0).
Proof.
  destruct (@zero_layers_in_forward Toy.framework) as [Hd [Hx _]].
  split.
  - exact (Hd (Toy.dcn_model 0 []) Toy.X0 Toy.state0 _ [Toy.X0] []
              (Stack [Toy.X0]) eq_refl eq_refl eq_refl eq_refl).
  - exact (Hx (Toy.xdeepfm_model [] []) _ _ _ eq_refl eq_refl).
Defined.

(** C1, as stated, fails: constructing each assembler with zero interaction
    layers and no hidden units and running it never reaches a
    [NotImplementedError]; the constructors stop at an unbound local or at
    the last element of an empty list, and the forward pass of xDeepFM,
    given such a model, returns a prediction. *)
Lemma zero_layers_do_not_raise_NotImplementedError :
  DCN.run (fw := Toy.framework) Toy.dcn_zero Toy.X0 7 = Raise UnboundLocalError
  /\ xDeepFM.run (fw := Toy.framework) Toy.xdeepfm_zero Toy.X0 7 = Raise IndexError
  /\ FiBiNET.run (fw := Toy.framework) Toy.fibinet_zero Toy.X0 7 = Raise IndexError
  /\ fst (xDeepFM.forward (fw := Toy.framework) (Toy.xdeepfm_model [] [])
            Toy.X0 Toy.state0)
     = Ok (Toy.column (Layers.sigmoid 0)).
Proof. repeat split. Qed.

(** ** Tensors and the output transform *)

Section Tensors.

Lemma tensor_induction (P : tensor -> Prop) :
  (forall v, P (Scalar v)) ->
  (forall ts, Forall P ts -> P (Stack ts)) ->
  forall t, P t.
Proof.
  intros Hscalar Hstack.
  fix IH 1. intros [v|ts].
  - apply Hscalar.
  - apply Hstack. induction ts as [|t ts IHts]; constructor.
    + apply IH.
    + exact IHts.
Qed.

Lemma all_values_Stack (P : R -> Prop) (ts : list tensor) :
  all_values P (Stack ts) <-> Forall (all_values P) ts.
Proof.
  induction ts as [|t ts IH]; simpl.
  - split; auto.
  - split.
    + intros [Ht Hts]. constructor; [exact Ht | apply IH; exact Hts].
    + intros H. inversion H; subst. split; [assumption | apply IH; assumption].
Qed.

Lemma all_values_tmap (P : R -> Prop) (f : R -> R) :
  (forall v, P (f v)) -> forall t, all_values P (tmap f t).
Proof.
  intros Hf. induction t as [v|ts IH] using tensor_induction.
  - apply Hf.
  - change (tmap f (Stack ts)) with (Stack (map (tmap f) ts)).
    apply all_values_Stack. apply Forall_map. exact IH.
Qed.

Lemma is_unit_row_tmap (f : R -> R) (t : tensor) :
  is_unit_row (tmap f t) = is_unit_row t.
Proof. destruct t as [v|[|[v|ts] [|t ts']]]; reflexivity. Qed.

Lemma is_column_tmap (f : R -> R) (t : tensor) :
  is_column (tmap f t) = is_column t.
Proof.
  destruct t as [v|rows]; [reflexivity|]. simpl.
  induction rows as [|r rows IH]; simpl.
  - reflexivity.
  - rewrite is_unit_row_tmap, IH. reflexivity.
Qed.

Lemma shape_tmap (f : R -> R) (t : tensor) : shape (tmap f t) = shape t.
Proof.
  unfold shape. induction t as [v|ts IH] using tensor_induction.
  - reflexivity.
  - simpl. f_equal. rewrite map_map.
    apply map_ext_Forall. exact IH.
Qed.

Lemma sigmoid_range (x : R) : (0 <= Layers.sigmoid x <= 1)%R.
Proof.
  unfold Layers.sigmoid. pose proof (exp_pos (- x)) as Hexp. split.
  - apply Rlt_le. apply Rdiv_lt_0_compat; lra.
  - unfold Rdiv. rewrite Rmult_1_l. rewrite <- Rinv_1 at 2.
    apply Rinv_le_contravar; lra.
Qed.

Lemma PredictionLayer_binary (logit : tensor) :
  is_column (Layers.PredictionLayer binary logit) = is_column logit
  /\ shape (Layers.PredictionLayer binary logit) = shape logit
  /\ all_values (fun v => 0 <= v <= 1)%R (Layers.PredictionLayer binary logit).
Proof.
  unfold Layers.PredictionLayer. split; [|split].
  - apply is_column_tmap.
  - apply shape_tmap.
  - apply all_values_tmap. apply sigmoid_range.
Qed.

End Tensors.

(** ** The prediction of the binary task *)

Section BinaryTask.

Context {fw : Framework}.
Hypothesis Hcolumns : logits_are_columns fw.
Hypothesis Hout : out_is_PredictionLayer fw.

Lemma out_binary_column (logit y : tensor) (st st' : fstate Store) :
  is_column logit = true ->
  call c_out (out binary logit) st = (Ok y, st') ->
  is_column y = true /\ all_values (fun v => 0 <= v <= 1)%R y.
Proof.
  intros Hlogit Hcall. apply call_ok in Hcall. destruct Hcall as [p' Hy].
  rewrite Hout in Hy. injection Hy as Hy _. subst y.
  destruct (PredictionLayer_binary logit) as [Hcol [_ Hall]].
  split; [exact (eq_trans Hcol Hlogit) | exact Hall].
Qed.

Lemma DCN_final_logit_column (m : DCN.model) (x logit : tensor)
      (st st' : fstate Store) :
  DCN.final_logit m x st = (Ok logit, st') -> is_column logit = true.
Proof.
  destruct Hcolumns as [_ [Hdl _]].
  unfold DCN.final_logit. intros H.
  destruct ((0 <? len (DCN.self_dnn_hidden_units m)) && (0 <? DCN.self_cross_num m));
    [|destruct (0 <? len (DCN.self_dnn_hidden_units m));
      [|destruct (0 <? DCN.self_cross_num m); [|discriminate]]];
    fwd_inv H; apply call_ok in H; destruct H as [p' H]; eapply Hdl; exact H.
Qed.

Lemma FiBiNET_final_logit_column (m : FiBiNET.model) (l d logit : tensor)
      (st st' : fstate Store) :
  is_column l = true -> is_column d = true ->
  FiBiNET.final_logit m l d st = (Ok logit, st') -> is_column logit = true.
Proof.
  destruct Hcolumns as [_ [_ [_ Hadd]]].
  intros Hl Hd. rewrite FiBiNET_final_logit_cases.
  destruct (FiBiNET.self_linear_feature_columns m),
           (FiBiNET.self_dnn_feature_columns m); intros H.
  - apply fret_ok in H. destruct H as [-> _]. exact Hd.
  - apply fret_ok in H. destruct H as [-> _]. exact Hd.
  - apply fret_ok in H. destruct H as [-> _]. exact Hl.
  - apply flift_ok in H. destruct H as [H _]. eapply Hadd; eassumption.
Qed.

Lemma xDeepFM_final_logit_column (m : xDeepFM.model) (l d c logit : tensor)
      (st st' : fstate Store) :
  is_column l = true -> is_column d = true -> is_column c = true ->
  xDeepFM.final_logit m l d c st = (Ok logit, st') -> is_column logit = true.
Proof.
  destruct Hcolumns as [_ [_ [_ Hadd]]].
  intros Hl Hd Hc. unfold xDeepFM.final_logit.
  destruct (xDeepFM.select _ _); intros H.
  - apply fret_ok in H. destruct H as [-> _]. exact Hl.
  - apply flift_ok in H. destruct H as [H _]. eapply Hadd; eassumption.
  - apply flift_ok in H. destruct H as [H _]. eapply Hadd; eassumption.
  - fwd_inv H. apply flift_ok in H. destruct H as [H _].
    eapply Hadd; [exact H | eapply Hadd; eassumption | exact Hc].
  - discriminate.
Qed.

End BinaryTask.


Section ToyFramework.

Lemma tensor_add_rows (x y : tensor) (xs ys : list tensor) :
  Toy.tensor_add (Stack (x :: xs)) (Stack (y :: ys))
  = match Toy.tensor_add x y, Toy.tensor_add (Stack xs) (Stack ys) with
    | Ok z, Ok (Stack zs) => Ok (Stack (z :: zs))
    | Raise e, _ => Raise e
    | _, Raise e => Raise e
    | _, _ => Raise RuntimeError
    end.
Proof. reflexivity. Qed.

Lemma tensor_add_unit_rows (x y z : tensor) :
  Toy.tensor_add x y = Ok z ->
  is_unit_row x = true -> is_unit_row y = true -> is_unit_row z = true.
Proof.
  destruct x as [u|[|[u|us] [|x' xs]]]; try discriminate.
  destruct y as [v|[|[v|vs] [|y' ys]]]; try discriminate.
  simpl. intros H _ _. inversion H; subst. reflexivity.
Qed.

Lemma tensor_add_columns (xs ys : list tensor) (c : tensor) :
  Toy.tensor_add (Stack xs) (Stack ys) = Ok c ->
  forallb is_unit_row xs = true -> forallb is_unit_row ys = true ->
  is_column c = true.
Proof.
  revert ys c. induction xs as [|x xs IH]; intros [|y ys] c; try discriminate.
  - simpl. intros H _ _. inversion H; subst. reflexivity.
  - rewrite tensor_add_rows.
    destruct (Toy.tensor_add x y) as [z|e] eqn:Ez;
      destruct (Toy.tensor_add (Stack xs) (Stack ys)) as [[w|zs]|e'] eqn:Ezs;
      try discriminate.
    intros H Hxs Hys. inversion H; subst.
    simpl in Hxs, Hys. apply andb_true_iff in Hxs, Hys.
    destruct Hxs as [Hx Hxs], Hys as [Hy Hys].
    simpl. apply andb_true_iff. split.
    + eapply tensor_add_unit_rows; eassumption.
    + apply (IH ys (Stack zs) Ezs Hxs Hys).
Qed.

Lemma toy_logits_are_columns : logits_are_columns Toy.framework.
Proof.
  repeat apply conj; simpl.
  - intros x p y p' H. inversion H; subst. reflexivity.
  - intros x p y p' H. inversion H; subst. reflexivity.
  - intros x p y p' H. inversion H; subst. reflexivity.
  - intros [u|xs] [v|ys] c H Ha Hb; try discriminate.
    eapply tensor_add_columns; eassumption.
Qed.

Lemma toy_out_is_PredictionLayer : out_is_PredictionLayer Toy.framework.
Proof. intros task x p. reflexivity. Qed.

End ToyFramework.


(** ** The cross network *)

Section CrossNetworkProperties.

Variable S : Type.
Variable szero : S.
Variables sadd smul : S -> S -> S.

Lemma CrossNetwork_snoc (layers : list (list S * list S)) (wb : list S * list S)
      (x0 : list S) :
  Layers.CrossNetwork szero sadd smul (layers ++ [wb]) x0
  = Layers.cross_layer szero sadd smul x0 wb
      (Layers.CrossNetwork szero sadd smul layers x0).
Proof. unfold Layers.CrossNetwork. rewrite fold_left_app. reflexivity. Qed.

Lemma firstn_succ_nth {A : Type} (l : list A) (n : nat) (a : A) :
  nth_error l n = Some a -> firstn (Datatypes.S n) l = firstn n l ++ [a].
Proof.
  revert n. induction l as [|x l IH]; intros [|n]; simpl; try discriminate.
  - intros H. inversion H; subst. reflexivity.
  - intros H. f_equal. apply IH. exact H.
Qed.

Lemma cross_state_step (layers : list (list S * list S)) (x0 : list S) (l : nat)
      (wb : list S * list S) :
  nth_error layers l = Some wb ->
  Layers.cross_state szero sadd smul layers x0 (Datatypes.S l)
  = Layers.cross_layer szero sadd smul x0 wb
      (Layers.cross_state szero sadd smul layers x0 l).
Proof.
  intros Hnth. unfold Layers.cross_state.
  rewrite (firstn_succ_nth _ _ Hnth). apply CrossNetwork_snoc.
Qed.

Lemma length_vadd (x y : list S) :
  List.length (Layers.vadd sadd x y) = Nat.min (List.length x) (List.length y).
Proof. unfold Layers.vadd. rewrite length_map, length_combine. reflexivity. Qed.

Lemma length_hadamard (x y : list S) :
  List.length (Layers.hadamard smul x y) = Nat.min (List.length x) (List.length y).
Proof. unfold Layers.hadamard. rewrite length_map, length_combine. reflexivity. Qed.

Lemma length_scale (x : list S) (c : S) :
  List.length (Layers.scale smul x c) = List.length x.
Proof. unfold Layers.scale. apply length_map. Qed.

Lemma length_cross_layer (D : nat) (x0 x_l : list S) (wb : list S * list S) :
  List.length x0 = D -> List.length (snd wb) = D -> List.length x_l = D ->
  List.length (Layers.cross_layer szero sadd smul x0 wb x_l) = D.
Proof.
  intros H0 Hb Hl. unfold Layers.cross_layer.
  rewrite !length_vadd, length_scale, H0, Hb, Hl, !Nat.min_id. reflexivity.
Qed.

Lemma length_CrossNetwork (D : nat) (layers : list (list S * list S)) (x0 : list S) :
  List.length x0 = D ->
  Forall (fun wb => List.length (snd wb) = D) layers ->
  List.length (Layers.CrossNetwork szero sadd smul layers x0) = D.
Proof.
  intros H0 Hlayers.
  induction layers as [|wb layers IH] using rev_ind.
  - exact H0.
  - apply Forall_app in Hlayers. destruct Hlayers as [Hinit Hlast].
    inversion Hlast; subst.
    rewrite CrossNetwork_snoc. apply length_cross_layer; auto.
Qed.

End CrossNetworkProperties.

(** C6.  One layer of the cross network on [x0] gives
    [x0 * (w1 · x0) + b1 + x0]; in a network of any depth the state after
    layer [l + 1] is [x0 * (w · x_l) + b + x_l] for the weights [(w, b)] of
    that layer, the state starts as [x0], and the output is the state after
    the last layer and has the dimension of [x0].  The scalars and their sum
    and product are arbitrary. *)
Theorem CrossNetwork_layer_formula
        (S : Type) (szero : S) (sadd smul : S -> S -> S) :
  let dot := Layers.dot szero sadd smul in
  let scale := Layers.scale smul in
  let vadd := Layers.vadd sadd in
  let CrossNetwork := Layers.CrossNetwork szero sadd smul in
  let x := Layers.cross_state szero sadd smul in
  (forall w1 b1 x0 : list S,
      CrossNetwork [(w1, b1)] x0 = vadd (vadd (scale x0 (dot w1 x0)) b1) x0)
  /\ (forall (layers : list (list S * list S)) (x0 w b : list S) (l : nat),
         nth_error layers l = Some (w, b) ->
         x layers x0 (Datatypes.S l)
         = vadd (vadd (scale x0 (dot w (x layers x0 l))) b) (x layers x0 l))
  /\ (forall (layers : list (list S * list S)) (x0 : list S),
         x layers x0 0%nat = x0
         /\ x layers x0 (List.length layers) = CrossNetwork layers x0)
  /\ (forall (D : nat) (layers : list (list S * list S)) (x0 : list S),
         List.length x0 = D ->
         Forall (fun wb => List.length (snd wb) = D) layers ->
         List.length (CrossNetwork layers x0) = D).
Proof.
  cbv zeta. split; [|split; [|split]].
  - intros w1 b1 x0. reflexivity.
  - intros layers x0 w b l Hnth.
    rewrite (cross_state_step _ _ _ _ _ _ Hnth). reflexivity.
  - intros layers x0. split; [reflexivity|].
    unfold Layers.cross_state. rewrite firstn_all. reflexivity.
  - intros D layers x0. apply length_CrossNetwork.
Qed.

Lemma CrossNetwork_layer_formula_witness :
  Layers.CrossNetwork 0 Z.add Z.mul [([1; 0; -1], [0; 1; 0])] [1; 2; 3] = [-1; -1; -3]
  /\ Layers.cross_state 0 Z.add Z.mul
       [([1; 0; -1], [0; 1; 0]); ([0; 1; 0], [1; 1; 1])] [1; 2; 3] 2
     = [-1; -2; -5]
  /\ List.length
       (Layers.CrossNetwork 0 Z.add Z.mul
          [([1; 0; -1], [0; 1; 0]); ([0; 1; 0], [1; 1; 1])] [1; 2; 3]) = 3%nat.
Proof.
  destruct (CrossNetwork_layer_formula 0 Z.add Z.mul) as [Hone [Hstep [_ Hdim]]].
  split; [|split].
  - rewrite (Hone [1; 0; -1] [0; 1; 0] [1; 2; 3]). reflexivity.
  - rewrite (Hstep [([1; 0; -1], [0; 1; 0]); ([0; 1; 0], [1; 1; 1])]
                   [1; 2; 3] [0; 1; 0] [1; 1; 1] 1%nat eq_refl).
    reflexivity.
  - apply Hdim; [reflexivity|]. repeat constructor.
Defined.

(** ** The width of the bilinear interaction *)

Section BilinearWidth.

Variable S : Type.
Variable szero : S.
Variables sadd smul : S -> S -> S.

Lemma length_pairs_twice {A : Type} (l : list A) :
  2 * len (Layers.pairs l) = len l * (len l - 1).
Proof.
  unfold len. induction l as [|x l IH]; simpl Layers.pairs.
  - reflexivity.
  - rewrite length_app, length_map. simpl List.length. lia.
Qed.

Lemma length_pairs {A : Type} (l : list A) :
  len (Layers.pairs l) = len l * (len l - 1) / 2.
Proof.
  rewrite <- length_pairs_twice, Z.mul_comm, Z.div_mul; lia.
Qed.

Lemma length_indexed (fields : list (list S)) :
  List.length (Layers.indexed fields) = List.length fields.
Proof.
  unfold Layers.indexed. rewrite length_combine, length_seq. apply Nat.min_id.
Qed.

(** A pair of indexed fields pairs a smaller position with a larger one. *)
Lemma pairs_indexed_from (a : nat) (fields : list (list S))
      (p : (nat * list S) * (nat * list S)) :
  In p (Layers.pairs (combine (seq a (List.length fields)) fields)) ->
  (a <= fst (fst p) < fst (snd p))%nat
  /\ (fst (snd p) < a + List.length fields)%nat
  /\ In (snd (fst p)) fields /\ In (snd (snd p)) fields.
Proof.
  revert a. induction fields as [|v fields IH]; intros a; simpl.
  - contradiction.
  - intros Hin. apply in_app_or in Hin. destruct Hin as [Hin|Hin].
    + apply in_map_iff in Hin. destruct Hin as [[j w] [<- Hq]]. simpl.
      pose proof (in_combine_l _ _ _ _ Hq) as Hj.
      pose proof (in_combine_r _ _ _ _ Hq) as Hw.
      apply in_seq in Hj. repeat split; auto; lia.
    + destruct (IH (Datatypes.S a) Hin) as [Hlt [Hbound [Hi Hj]]].
      repeat split; auto; lia.
Qed.

Lemma length_vec_mat (v : list S) (W : Layers.matrix S) :
  List.length (Layers.vec_mat szero sadd smul v W) = List.length W.
Proof. unfold Layers.vec_mat. apply length_map. Qed.

Lemma length_concat_uniform {A : Type} (E : nat) (ls : list (list A)) :
  Forall (fun l => List.length l = E) ls ->
  List.length (List.concat ls) = (List.length ls * E)%nat.
Proof.
  induction 1 as [|l ls Hl _ IH]; simpl.
  - reflexivity.
  - rewrite length_app, Hl, IH. reflexivity.
Qed.

Lemma length_bilinear_product (ws : Layers.bilinear_weights S)
      (fields : list (list S)) (E : nat) (p : (nat * list S) * (nat * list S)) :
  Forall (fun v => List.length v = E) fields ->
  Layers.square_weights ws (List.length fields) E ->
  In p (Layers.pairs (Layers.indexed fields)) ->
  List.length (Layers.bilinear_product szero sadd smul ws p) = E.
Proof.
  intros Hfields Hws Hin.
  apply (pairs_indexed_from 0) in Hin.
  destruct Hin as [Hlt [Hbound [Hi Hj]]].
  destruct p as [[i vi] [j vj]]. simpl in *.
  rewrite Forall_forall in Hfields.
  rewrite length_hadamard, length_vec_mat, (Hfields _ Hj), Hws by lia.
  apply Nat.min_id.
Qed.

Lemma length_BilinearInteraction (ws : Layers.bilinear_weights S)
      (fields : list (list S)) (E : nat) :
  Forall (fun v => List.length v = E) fields ->
  Layers.square_weights ws (List.length fields) E ->
  len (Layers.BilinearInteraction szero sadd smul ws fields)
  = len fields * (len fields - 1) / 2 * Z.of_nat E.
Proof.
  intros Hfields Hws. unfold Layers.BilinearInteraction.
  unfold len at 1.
  rewrite (@length_concat_uniform _ E).
  - rewrite length_map, Nat2Z.inj_mul.
    change (Z.of_nat (List.length (Layers.pairs (Layers.indexed fields))))
      with (len (Layers.pairs (Layers.indexed fields))).
    rewrite length_pairs. unfold len. rewrite length_indexed. reflexivity.
  - apply Forall_map. apply Forall_forall. intros p Hin.
    eapply length_bilinear_product; eassumption.
Qed.

End BilinearWidth.

Section FiBiNETInputDim.

Import FiBiNETDims.

Lemma consecutive_product_half (F : Z) : F * (F - 1) / 2 * 2 = F * (F - 1).
Proof.
  destruct (Z.Even_or_Odd F) as [[k ->]|[k ->]].
  - replace (2 * k * (2 * k - 1)) with (k * (2 * k - 1) * 2) by ring.
    rewrite Z.div_mul by lia. reflexivity.
  - replace ((2 * k + 1) * (2 * k + 1 - 1)) with ((2 * k + 1) * k * 2) by ring.
    rewrite Z.div_mul by lia. reflexivity.
Qed.

Lemma compute_input_dim_formula (feature_columns : list FeatureColumn)
      (embedding_size : Z) :
  let F := len (filter is_SparseFeat feature_columns) in
  compute_input_dim feature_columns embedding_size false
  = F * (F - 1) * embedding_size
    + sum (map dimension (filter is_DenseFeat feature_columns)).
Proof.
  unfold compute_input_dim. destruct feature_columns; reflexivity.
Qed.

End FiBiNETInputDim.

(** C4.  Under each sharing policy, the bilinear interaction of [F] fields
    of dimension [E], with weights of [E] columns, has width
    [F * (F - 1) / 2 * E] (for every [F], so for [F >= 2]); and
    [FiBiNET.compute_input_dim] is [F * (F - 1) * E], twice that width, plus
    the sum of the dimensions of the dense features, whatever the policy. *)
Theorem BilinearInteraction_output_width
        (S : Type) (szero : S) (sadd smul : S -> S -> S)
        (ws : Layers.bilinear_weights S) (fields : list (list S)) (E : nat)
        (feature_columns : list FeatureColumn) :
  Forall (fun v => List.length v = E) fields ->
  Layers.square_weights ws (List.length fields) E ->
  len (filter is_SparseFeat feature_columns) = len fields ->
  let F := len fields in
  let width := len (Layers.BilinearInteraction szero sadd smul ws fields) in
  let dense := sum (map dimension (filter is_DenseFeat feature_columns)) in
  width = F * (F - 1) / 2 * Z.of_nat E
  /\ FiBiNETDims.compute_input_dim feature_columns (Z.of_nat E) false
     = F * (F - 1) * Z.of_nat E + dense
  /\ FiBiNETDims.compute_input_dim feature_columns (Z.of_nat E) false
     = 2 * width + dense.
Proof.
  intros Hfields Hws Hsparse. cbv zeta.
  rewrite (length_BilinearInteraction szero sadd smul Hfields Hws).
  rewrite compute_input_dim_formula. cbv zeta. rewrite Hsparse.
  repeat split.
  pose proof (consecutive_product_half (len fields)) as Hhalf.
  set (h := len fields * (len fields - 1) / 2) in *.
  rewrite <- Hhalf. ring.
Qed.

Lemma BilinearInteraction_output_width_witness :
  let fields := [[1; 2]; [3; 4]; [5; 6]] in
  let identity := [[1; 0]; [0; 1]] in
  let columns := [SparseFeat "C1" 10; SparseFeat "C2" 10; SparseFeat "C3" 10;
                  DenseFeat "I1" 1] in
  Layers.BilinearInteraction 0 Z.add Z.mul (Layers.W_all identity) fields
  = [3; 8; 5; 12; 15; 24]
  /\ len (Layers.BilinearInteraction 0 Z.add Z.mul (Layers.W_all identity) fields)
     = 3 * (3 - 1) / 2 * 2
  /\ len (Layers.BilinearInteraction 0 Z.add Z.mul
            (Layers.W_each (fun _ => identity)) fields)
     = 3 * (3 - 1) / 2 * 2
  /\ len (Layers.BilinearInteraction 0 Z.add Z.mul
            (Layers.W_interaction (fun _ _ => identity)) fields)
     = 3 * (3 - 1) / 2 * 2
  /\ FiBiNETDims.compute_input_dim columns 2 false = 3 * (3 - 1) * 2 + 1.
Proof.
  cbv zeta.
  assert (Hfields : Forall (fun v : list Z => List.length v = 2%nat)
                           [[1; 2]; [3; 4]; [5; 6]])
    by (repeat constructor).
  assert (Hsparse :
            len (filter is_SparseFeat
                   [SparseFeat "C1" 10; SparseFeat "C2" 10; SparseFeat "C3" 10;
                    DenseFeat "I1" 1])
            = len [[1; 2]; [3; 4]; [5; 6]])
    by reflexivity.
  set (fields := [[1; 2]; [3; 4]; [5; 6]]) in *.
  set (columns := [SparseFeat "C1" 10; SparseFeat "C2" 10; SparseFeat "C3" 10;
                   DenseFeat "I1" 1]) in *.
  split; [reflexivity|].
  split; [|split; [|split]].
  - refine (proj1 (@BilinearInteraction_output_width Z 0 Z.add Z.mul
                     (Layers.W_all [[1; 0]; [0; 1]]) fields 2 columns
                     Hfields _ Hsparse)).
    intros i j _. reflexivity.
  - refine (proj1 (@BilinearInteraction_output_width Z 0 Z.add Z.mul
                     (Layers.W_each (fun _ => [[1; 0]; [0; 1]])) fields 2 columns
                     Hfields _ Hsparse)).
    intros i j _. reflexivity.
  - refine (proj1 (@BilinearInteraction_output_width Z 0 Z.add Z.mul
                     (Layers.W_interaction (fun _ _ => [[1; 0]; [0; 1]]))
                     fields 2 columns Hfields _ Hsparse)).
    intros i j _. reflexivity.
  - refine (proj1 (proj2 (@BilinearInteraction_output_width Z 0 Z.add Z.mul
                            (Layers.W_all [[1; 0]; [0; 1]]) fields 2 columns
                            Hfields _ Hsparse))).
    intros i j _. reflexivity.
Defined.

(** * Further properties of the constructors and the forward passes *)

(** ** What a constructor needs and what it builds *)

Section DCNConstruction.

Context {fw : Framework}.

Lemma DCN_init_dnn_linear_in_feature_cases (c : DCN.config) :
  let input_dim :=
    base_compute_input_dim (DCN.dnn_feature_columns c) (DCN.embedding_size c) in
  DCN.init_dnn_linear_in_feature c
  = ([], match index_last (DCN.dnn_hidden_units c) with
         | Ok last =>
             if 0 <? DCN.cross_num c then Ok (Some (input_dim + last))
             else Ok (Some last)
         | Raise _ =>
             if 0 <? DCN.cross_num c then Ok (Some input_dim) else Ok None
         end).
Proof.
  cbv zeta. unfold DCN.init_dnn_linear_in_feature.
  destruct (DCN.dnn_hidden_units c) as [|h hs] eqn:Hhidden.
  - simpl. destruct (0 <? DCN.cross_num c); reflexivity.
  - destruct (@index_last_nonempty (h :: hs)) as [last Hlast]; [discriminate|].
    rewrite Hlast.
    replace (0 <? len (h :: hs)) with true
      by (symmetry; apply len_pos_nonempty; discriminate).
    simpl andb. destruct (0 <? DCN.cross_num c); reflexivity.
Qed.

Lemma DCN_init_inv (c : DCN.config) (tr : list ctor_event) (m : DCN.model) :
  DCN.init c = (tr, Ok m) ->
  let input_dim :=
    base_compute_input_dim (DCN.dnn_feature_columns c) (DCN.embedding_size c) in
  DCN.init_dnn_linear_in_feature c = ([], Ok (Some (DCN.dnn_linear_in_feature m)))
  /\ DCN.self_dnn_hidden_units m = DCN.dnn_hidden_units c
  /\ DCN.self_cross_num m = DCN.cross_num c
  /\ DCN.self_dnn_feature_columns m = DCN.dnn_feature_columns c
  /\ DCN.self_task m = DCN.task c
  /\ tr = [NewBaseModel [] (DCN.dnn_feature_columns c) (DCN.embedding_size c)
                        (DCN.dnn_hidden_units c) (DCN.task c);
           NewDNN input_dim (DCN.dnn_hidden_units c);
           NewLinear (DCN.dnn_linear_in_feature m) 1;
           NewCrossNet input_dim (DCN.cross_num c);
           AddRegularizationLoss RegDnnWeights;
           AddRegularizationLoss RegDnnLinearWeight;
           AddRegularizationLoss RegCrossnetKernels].
Proof.
  cbv zeta. unfold DCN.init. intros H. ctor_inv H. subst. simpl.
  rewrite DCN_init_dnn_linear_in_feature_cases in Hstep1.
  injection Hstep1 as <- Hbound.
  destruct a1 as [d|]; [|discriminate].
  apply cret_ok in Hstep2. destruct Hstep2 as [-> ->].
  rewrite DCN_init_dnn_linear_in_feature_cases, Hbound.
  repeat split.
Qed.

End DCNConstruction.

(** X1.  A constructed DCN has given [dnn_linear] one output feature and,
    as input features, the input width plus the last hidden width when both
    towers are configured, the last hidden width when only the deep tower
    is, and the input width when only the cross tower is. *)
Theorem DCN_dnn_linear_in_features {fw : Framework}
        (c : DCN.config) (tr : list ctor_event) (m : DCN.model) :
  DCN.init c = (tr, Ok m) ->
  let input_dim :=
    base_compute_input_dim (DCN.dnn_feature_columns c) (DCN.embedding_size c) in
  In (NewLinear (DCN.dnn_linear_in_feature m) 1) tr
  /\ (forall hs last, DCN.dnn_hidden_units c = hs ++ [last] ->
                      0 < DCN.cross_num c ->
                      DCN.dnn_linear_in_feature m = input_dim + last)
  /\ (forall hs last, DCN.dnn_hidden_units c = hs ++ [last] ->
                      DCN.cross_num c <= 0 ->
                      DCN.dnn_linear_in_feature m = last)
  /\ (DCN.dnn_hidden_units c = [] -> 0 < DCN.cross_num c ->
      DCN.dnn_linear_in_feature m = input_dim).
Proof.
  intros H. cbv zeta.
  destruct (@DCN_init_inv _ _ _ _ H) as [Hbound [_ [_ [_ [_ ->]]]]].
  rewrite DCN_init_dnn_linear_in_feature_cases in Hbound.
  injection Hbound as Hbound.
  split; [simpl; auto|]. split; [|split].
  - intros hs last Hhidden Hcross.
    rewrite Hhidden, index_last_snoc in Hbound.
    apply Z.ltb_lt in Hcross. rewrite Hcross in Hbound. congruence.
  - intros hs last Hhidden Hcross.
    rewrite Hhidden, index_last_snoc in Hbound.
    assert (Hc : (0 <? DCN.cross_num c) = false) by (apply Z.ltb_ge; lia).
    rewrite Hc in Hbound. congruence.
  - intros Hhidden Hcross. rewrite Hhidden in Hbound. simpl in Hbound.
    apply Z.ltb_lt in Hcross. rewrite Hcross in Hbound. congruence.
Qed.

Lemma DCN_dnn_linear_in_features_witness :
  exists tr m,
    DCN.init (fw := Toy.framework) Toy.dcn_deep_cross = (tr, Ok m)
    /\ In (NewLinear 144 1) tr
    /\ DCN.dnn_linear_in_feature m = 16 + 128.
Proof.
  eexists. eexists. split; [reflexivity|].
  destruct (@DCN_dnn_linear_in_features Toy.framework Toy.dcn_deep_cross _ _ eq_refl)
    as [Hin [Hboth _]].
  split; [exact Hin|].
  exact (Hboth [128] 128 eq_refl eq_refl).
Defined.

(** X2.  Constructing DCN with no hidden units and no cross layer
    ([cross_num <= 0]) never yields a model and instantiates neither
    [dnn_linear] nor [CrossNet]; when the collaborators accept their
    constructions it stops, after [BaseModel] and [DNN], at the unbound local
    [dnn_linear_in_feature]. *)
Theorem DCN_init_without_towers {fw : Framework} (c : DCN.config) :
  DCN.dnn_hidden_units c = [] ->
  DCN.cross_num c <= 0 ->
  let input_dim :=
    base_compute_input_dim (DCN.dnn_feature_columns c) (DCN.embedding_size c) in
  is_ok (outcome (DCN.init c)) = false
  /\ existsb is_NewCrossNet (trace (DCN.init c)) = false
  /\ (accepting fw ->
      DCN.init c
      = ([NewBaseModel [] (DCN.dnn_feature_columns c) (DCN.embedding_size c)
                       [] (DCN.task c);
          NewDNN input_dim []],
         Raise UnboundLocalError)).
Proof.
  intros Hhidden Hcross. cbv zeta.
  assert (Hc : (0 <? DCN.cross_num c) = false) by (apply Z.ltb_ge; lia).
  assert (Hbound : DCN.init_dnn_linear_in_feature c = ([], Ok None)).
  { rewrite DCN_init_dnn_linear_in_feature_cases, Hhidden, Hc. reflexivity. }
  unfold DCN.init, new. rewrite Hbound, Hhidden.
  split; [|split].
  - destruct (accepts (NewBaseModel _ _ _ _ _)) as [[]|e]; [|reflexivity].
    destruct (accepts (NewDNN _ _)) as [[]|e]; reflexivity.
  - destruct (accepts (NewBaseModel _ _ _ _ _)) as [[]|e]; [|reflexivity].
    destruct (accepts (NewDNN _ _)) as [[]|e]; reflexivity.
  - intros Hacc. rewrite !Hacc. reflexivity.
Qed.

Lemma DCN_init_without_towers_witness :
  is_ok (outcome (DCN.init (fw := Toy.framework) Toy.dcn_zero)) = false
  /\ existsb is_NewCrossNet (trace (DCN.init (fw := Toy.framework) Toy.dcn_zero))
     = false
  /\ DCN.init (fw := Toy.framework) Toy.dcn_zero
     = ([NewBaseModel [] Toy.two_sparse 4 [] binary; NewDNN 8 []],
        Raise UnboundLocalError).
Proof.
  destruct (@DCN_init_without_towers Toy.framework Toy.dcn_zero eq_refl)
    as [Hfail [Hcross Hexn]].
  - discriminate.
  - split; [exact Hfail|]. split; [exact Hcross|]. exact (Hexn toy_accepting).
Defined.

Lemma index_last_raise_empty (xs : list Z) (e : exn) :
  index_last xs = Raise e -> xs = [].
Proof.
  destruct xs as [|x xs]; [reflexivity|]. intros H.
  destruct (@index_last_nonempty (x :: xs)) as [last Hlast]; [discriminate|].
  congruence.
Qed.

(** X3.  A constructed DCN has a tower: a non-empty [dnn_hidden_units] or a
    positive [cross_num], which it has kept as given; and every configuration
    with a tower is constructed when the collaborators accept their
    constructions. *)
Theorem DCN_init_succeeds_with_a_tower {fw : Framework} (c : DCN.config) :
  (forall tr m,
      DCN.init c = (tr, Ok m) ->
      DCN.self_dnn_hidden_units m = DCN.dnn_hidden_units c
      /\ DCN.self_cross_num m = DCN.cross_num c
      /\ (DCN.self_dnn_hidden_units m <> [] \/ 0 < DCN.self_cross_num m))
  /\ (accepting fw ->
      DCN.dnn_hidden_units c <> [] \/ 0 < DCN.cross_num c ->
      exists tr m, DCN.init c = (tr, Ok m)).
Proof.
  split.
  - intros tr m H.
    destruct (@DCN_init_inv _ _ _ _ H) as [Hbound [Hh [Hc _]]].
    rewrite Hh, Hc. repeat split.
    rewrite DCN_init_dnn_linear_in_feature_cases in Hbound.
    injection Hbound as Hbound.
    destruct (DCN.dnn_hidden_units c) as [|h hs]; [|left; discriminate].
    simpl in Hbound. right.
    destruct (0 <? DCN.cross_num c) eqn:Hcross; [|discriminate].
    apply Z.ltb_lt. exact Hcross.
  - intros Hacc Hvalid. unfold DCN.init, new.
    rewrite DCN_init_dnn_linear_in_feature_cases, !Hacc.
    destruct (index_last (DCN.dnn_hidden_units c)) as [last|e] eqn:Hlast;
      destruct (0 <? DCN.cross_num c) eqn:Hcross;
      cbn; rewrite ?Hacc; cbn; try (eexists; eexists; reflexivity).
    exfalso. apply index_last_raise_empty in Hlast.
    apply Z.ltb_ge in Hcross. destruct Hvalid; [congruence | lia].
Qed.

Lemma DCN_init_succeeds_with_a_tower_witness :
  exists tr m,
    DCN.init (fw := Toy.framework) Toy.dcn_only_deep = (tr, Ok m)
    /\ (DCN.self_dnn_hidden_units m <> [] \/ 0 < DCN.self_cross_num m).
Proof.
  destruct (@DCN_init_succeeds_with_a_tower Toy.framework Toy.dcn_only_deep)
    as [Hmodel Hbuilt].
  destruct (Hbuilt toy_accepting (or_introl (fun H => @nil_cons _ _ _ (eq_sym H))))
    as [tr [m Hinit]].
  exists tr, m. split; [exact Hinit|].
  exact (proj2 (proj2 (Hmodel tr m Hinit))).
Defined.

(** X4.  When the collaborators accept their constructions, xDeepFM is
    constructed from every configuration with a non-empty [dnn_hidden_units]
    and, under [cin_split_half], a non-empty [cin_layer_size]; without
    [cin_split_half] an empty [cin_layer_size] is accepted and gives
    [cin_linear] zero input features. *)
Theorem xDeepFM_init_succeeds {fw : Framework} (c : xDeepFM.config) :
  accepting fw ->
  xDeepFM.dnn_hidden_units c <> [] ->
  (xDeepFM.cin_split_half c = true -> xDeepFM.cin_layer_size c <> []) ->
  exists tr m,
    xDeepFM.init c = (tr, Ok m)
    /\ xDeepFM.self_dnn_hidden_units m = xDeepFM.dnn_hidden_units c
    /\ xDeepFM.self_cin_layer_size m = xDeepFM.cin_layer_size c
    /\ XDeepFMDims.featuremap_num (xDeepFM.cin_split_half c) (xDeepFM.cin_layer_size c)
       = Ok (xDeepFM.self_featuremap_num m)
    /\ (xDeepFM.cin_split_half c = false -> xDeepFM.cin_layer_size c = [] ->
        xDeepFM.self_featuremap_num m = 0 /\ In (NewLinear 0 1) tr).
Proof.
  intros Hacc Hhidden Hcin.
  destruct (index_last_nonempty Hhidden) as [last Hlast].
  assert (Hfm : exists fm,
             XDeepFMDims.featuremap_num (xDeepFM.cin_split_half c)
                                        (xDeepFM.cin_layer_size c) = Ok fm).
  { unfold XDeepFMDims.featuremap_num.
    destruct (xDeepFM.cin_split_half c); [|eauto].
    destruct (index_last_nonempty (Hcin eq_refl)) as [k ->]. eauto. }
  destruct Hfm as [fm Hfm].
  unfold xDeepFM.init, new. rewrite Hlast, Hfm, !Hacc.
  cbn. rewrite !Hacc. cbn.
  eexists. eexists. split; [reflexivity|]. simpl.
  split; [reflexivity|]. split; [reflexivity|]. split; [reflexivity|].
  intros Hsplit Hempty. rewrite Hsplit, Hempty in Hfm.
  injection Hfm as <-. split; [reflexivity|].
  do 4 right. left. reflexivity.
Qed.

Lemma xDeepFM_init_succeeds_witness :
  exists tr m,
    xDeepFM.init (fw := Toy.framework) (Toy.xdeepfm_4_4 true) = (tr, Ok m)
    /\ xDeepFM.self_dnn_hidden_units m = [8]
    /\ xDeepFM.self_cin_layer_size m = [4; 4].
Proof.
  destruct (@xDeepFM_init_succeeds Toy.framework (Toy.xdeepfm_4_4 true) toy_accepting)
    as [tr [m [Hinit [Hh [Hc _]]]]].
  - discriminate.
  - discriminate.
  - exists tr, m. auto.
Defined.

Section FiBiNETConstruction.

Context {fw : Framework}.

Lemma FiBiNET_init_inv (c : FiBiNET.config) (tr : list ctor_event) (m : FiBiNET.model) :
  FiBiNET.init c = (tr, Ok m) ->
  let filed_size := embedding_dict_len (FiBiNET.dnn_feature_columns c) in
  let input_dim :=
    FiBiNETDims.compute_input_dim (FiBiNET.dnn_feature_columns c)
                                  (FiBiNET.embedding_size c) false in
  index_last (FiBiNET.dnn_hidden_units c) = Ok (FiBiNET.dnn_linear_in_features m)
  /\ FiBiNET.dnn_input_dim m = input_dim
  /\ FiBiNET.self_linear_feature_columns m = FiBiNET.linear_feature_columns c
  /\ FiBiNET.self_dnn_feature_columns m = FiBiNET.dnn_feature_columns c
  /\ tr = [NewBaseModel (FiBiNET.linear_feature_columns c)
                        (FiBiNET.dnn_feature_columns c) (FiBiNET.embedding_size c)
                        (FiBiNET.dnn_hidden_units c) (FiBiNET.task c);
           NewSENETLayer filed_size (FiBiNET.reduction_ratio c);
           NewBilinearInteraction filed_size (FiBiNET.embedding_size c)
                                  (FiBiNET.bilinear_type c);
           NewDNN input_dim (FiBiNET.dnn_hidden_units c);
           NewLinear (FiBiNET.dnn_linear_in_features m) 1].
Proof.
  cbv zeta. unfold FiBiNET.init. intros H. ctor_inv H. subst. simpl.
  repeat split. exact Hstep3.
Qed.

End FiBiNETConstruction.

(** X5.  A constructed FiBiNET has built its DNN for an input of
    [F * (F - 1) * embedding_size] plus the dense dimensions, [F] the number
    of sparse columns among [dnn_feature_columns], and [dnn_linear] from the
    last hidden width to one output; the SENET and bilinear layers are built
    for as many fields as the embedding dictionary holds, and nothing else is
    instantiated; every configuration with a non-empty [dnn_hidden_units] is
    constructed when the collaborators accept. *)
Theorem FiBiNET_init_widths {fw : Framework} (c : FiBiNET.config) :
  (forall tr m,
      FiBiNET.init c = (tr, Ok m) ->
      let F := len (filter is_SparseFeat (FiBiNET.dnn_feature_columns c)) in
      let dense :=
        sum (map dimension (filter is_DenseFeat (FiBiNET.dnn_feature_columns c))) in
      let fields := embedding_dict_len (FiBiNET.dnn_feature_columns c) in
      exists hs last,
        FiBiNET.dnn_hidden_units c = hs ++ [last]
        /\ tr = [NewBaseModel (FiBiNET.linear_feature_columns c)
                              (FiBiNET.dnn_feature_columns c)
                              (FiBiNET.embedding_size c)
                              (FiBiNET.dnn_hidden_units c) (FiBiNET.task c);
                 NewSENETLayer fields (FiBiNET.reduction_ratio c);
                 NewBilinearInteraction fields (FiBiNET.embedding_size c)
                                        (FiBiNET.bilinear_type c);
                 NewDNN (F * (F - 1) * FiBiNET.embedding_size c + dense)
                        (FiBiNET.dnn_hidden_units c);
                 NewLinear last 1])
  /\ (accepting fw -> FiBiNET.dnn_hidden_units c <> [] ->
      exists tr m, FiBiNET.init c = (tr, Ok m)).
Proof.
  split.
  - intros tr m H. cbv zeta.
    destruct (@FiBiNET_init_inv _ _ _ _ H) as [Hlast [_ [_ [_ ->]]]].
    pose proof (index_last_ok_nonempty Hlast) as Hne.
    destruct (exists_last Hne) as [hs [last Hhidden]].
    exists hs, last. split; [exact Hhidden|].
    rewrite Hhidden, index_last_snoc in Hlast. injection Hlast as <-.
    rewrite compute_input_dim_formula. reflexivity.
  - intros Hacc Hne. destruct (index_last_nonempty Hne) as [last Hlast].
    unfold FiBiNET.init, new. rewrite Hlast, !Hacc. cbn. rewrite Hacc.
    eexists. eexists. reflexivity.
Qed.

Lemma FiBiNET_init_widths_witness :
  exists m,
    FiBiNET.init (fw := Toy.framework) Toy.fibinet_default
    = ([NewBaseModel Toy.two_sparse Toy.two_sparse 4 [8; 8] binary;
        NewSENETLayer 2 3;
        NewBilinearInteraction 2 4 "interaction";
        NewDNN (2 * (2 - 1) * 4 + 0) [8; 8];
        NewLinear 8 1], Ok m).
Proof.
  destruct (@FiBiNET_init_widths Toy.framework Toy.fibinet_default)
    as [Hbuilt Hexists].
  destruct Hexists as [tr [m Hinit]].
  - exact toy_accepting.
  - discriminate.
  - exists m. destruct (Hbuilt tr m Hinit) as [hs [last [Hhidden Htr]]].
    rewrite Hinit. f_equal. rewrite Htr.
    assert (Hlast : last = 8).
    { change (FiBiNET.dnn_hidden_units Toy.fibinet_default) with ([8] ++ [8]) in Hhidden.
      apply app_inj_tail in Hhidden. destruct Hhidden as [_ Hl]. congruence. }
    rewrite Hlast. reflexivity.
Defined.

(** ** The layers a forward pass calls *)

Section CallSequences.

Context {fw : Framework}.

Lemma call_ok_calls {A : Type} (c : component) (layer : Store -> result A * Store)
      (st st' : fstate Store) (a : A) :
  call c layer st = (Ok a, st') -> calls st' = calls st ++ [c].
Proof.
  unfold call. destruct (layer (params st)) as [r p'].
  intros H. inversion H; subst. reflexivity.
Qed.

Lemma xDeepFM_final_logit_pure (m : xDeepFM.model) (l d c logit : tensor)
      (st st' : fstate Store) :
  xDeepFM.final_logit m l d c st = (Ok logit, st') -> st' = st.
Proof.
  unfold xDeepFM.final_logit. destruct (xDeepFM.select _ _); intros H.
  - apply fret_ok in H. tauto.
  - apply flift_ok in H. tauto.
  - apply flift_ok in H. tauto.
  - fwd_inv H. apply flift_ok in H. tauto.
  - discriminate.
Qed.

Lemma FiBiNET_final_logit_pure (m : FiBiNET.model) (l d logit : tensor)
      (st st' : fstate Store) :
  FiBiNET.final_logit m l d st = (Ok logit, st') -> st' = st.
Proof.
  rewrite FiBiNET_final_logit_cases.
  destruct (FiBiNET.self_linear_feature_columns m),
           (FiBiNET.self_dnn_feature_columns m); intros H.
  - apply fret_ok in H. tauto.
  - apply fret_ok in H. tauto.
  - apply fret_ok in H. tauto.
  - apply flift_ok in H. tauto.
Qed.

End CallSequences.

(** Reading the calls of a forward pass that returned off its steps. *)
Ltac calls_of_steps :=
  repeat match goal with
         | Hc : call _ _ _ = (Ok _, _) |- _ => apply call_ok_calls in Hc
         end;
  repeat match goal with
         | Hc : calls ?s = _ |- context [calls ?s] => rewrite Hc
         end;
  repeat rewrite <- app_assoc; reflexivity.

(** X6.  A forward pass of xDeepFM that returns has called, in this order,
    the input extraction, [linear_model], [cin], [cin_linear], [dnn],
    [dnn_linear] and [out], once each, whatever the branch: the CIN and the
    DNN are evaluated also when their logit is not added. *)
Theorem xDeepFM_forward_calls {fw : Framework}
        (m : xDeepFM.model) (X : tensor) (st st' : fstate Store) (y : tensor) :
  xDeepFM.forward m X st = (Ok y, st') ->
  calls st' = calls st ++ [c_input_from_feature_columns; c_linear_model; c_cin;
                           c_cin_linear; c_dnn; c_dnn_linear; c_out].
Proof.
  unfold xDeepFM.forward. intros H. fwd_inv H.
  match goal with
  | Hf : xDeepFM.final_logit _ _ _ _ _ = (Ok _, _) |- _ =>
      apply xDeepFM_final_logit_pure in Hf; subst
  end.
  calls_of_steps.
Qed.

Lemma xDeepFM_forward_calls_witness :
  calls (snd (xDeepFM.forward (fw := Toy.framework) (Toy.xdeepfm_model [8] [])
                Toy.X0 Toy.state0))
  = [] ++ [c_input_from_feature_columns; c_linear_model; c_cin;
           c_cin_linear; c_dnn; c_dnn_linear; c_out].
Proof.
  exact (@xDeepFM_forward_calls Toy.framework (Toy.xdeepfm_model [8] [])
           Toy.X0 Toy.state0 _ _ eq_refl).
Defined.

(** X7.  A forward pass of FiBiNET that returns has called, in this order,
    the input extraction, [SE], [Bilinear] twice (on the reweighted and on
    the plain embeddings, the same layer), [linear_model], [dnn],
    [dnn_linear] and [out], whatever the branch. *)
Theorem FiBiNET_forward_calls {fw : Framework}
        (m : FiBiNET.model) (X : tensor) (st st' : fstate Store) (y : tensor) :
  FiBiNET.forward m X st = (Ok y, st') ->
  calls st' = calls st ++ [c_input_from_feature_columns; c_SE; c_Bilinear;
                           c_Bilinear; c_linear_model; c_dnn; c_dnn_linear; c_out].
Proof.
  unfold FiBiNET.forward. intros H. fwd_inv H.
  match goal with
  | Hf : FiBiNET.final_logit _ _ _ _ = (Ok _, _) |- _ =>
      apply FiBiNET_final_logit_pure in Hf; subst
  end.
  calls_of_steps.
Qed.

Lemma FiBiNET_forward_calls_witness :
  calls (snd (FiBiNET.forward (fw := Toy.framework) (Toy.fibinet_model [])
                Toy.X0 Toy.state0))
  = [] ++ [c_input_from_feature_columns; c_SE; c_Bilinear;
           c_Bilinear; c_linear_model; c_dnn; c_dnn_linear; c_out].
Proof.
  exact (@FiBiNET_forward_calls Toy.framework (Toy.fibinet_model [])
           Toy.X0 Toy.state0 _ _ eq_refl).
Defined.

(** X8.  A forward pass of DCN that returns has called the input
    extraction, then the towers that are configured (the DNN when
    [dnn_hidden_units] is non-empty, then the cross network when
    [cross_num > 0]), then [dnn_linear] and [out]: with an empty
    [dnn_hidden_units] the DNN, though constructed, is not called. *)
Theorem DCN_forward_calls {fw : Framework}
        (m : DCN.model) (X : tensor) (st st' : fstate Store) (y : tensor) :
  DCN.forward m X st = (Ok y, st') ->
  calls st'
  = calls st
    ++ [c_input_from_feature_columns]
    ++ (if 0 <? len (DCN.self_dnn_hidden_units m) then [c_dnn] else [])
    ++ (if 0 <? DCN.self_cross_num m then [c_crossnet] else [])
    ++ [c_dnn_linear; c_out].
Proof.
  unfold DCN.forward, DCN.final_logit.
  destruct (0 <? len (DCN.self_dnn_hidden_units m));
    destruct (0 <? DCN.self_cross_num m); cbn [andb app];
    intros H; fwd_inv H;
    repeat match goal with
           | Hf : fbind _ _ _ = (Ok _, _) |- _ => fwd_inv Hf
           end;
    try match goal with
        | Hf : Raise _ = Ok _ |- _ => discriminate Hf
        end;
    calls_of_steps.
Qed.

Lemma DCN_forward_calls_witness :
  calls (snd (DCN.forward (fw := Toy.framework) (Toy.dcn_model 2 [])
                Toy.X0 Toy.state0))
  = [] ++ [c_input_from_feature_columns] ++ [] ++ [c_crossnet]
       ++ [c_dnn_linear; c_out].
Proof.
  exact (@DCN_forward_calls Toy.framework (Toy.dcn_model 2 [])
           Toy.X0 Toy.state0 _ _ eq_refl).
Defined.

(** ** Calling a model twice *)

Section Repeatable.

Context {fw : Framework}.
Hypothesis Hread : read_only fw.

Lemma repeat_from_frame {A : Type} (f : Fwd Store A) :
  preserves_params f -> reads_params_only f ->
  forall st, fst (f (snd (f st))) = fst (f st).
Proof.
  intros Hframe Hreads st.
  apply (Hreads (snd (f st)) st). apply Hframe.
Qed.

Lemma DCN_forward_frame (m : DCN.model) (X : tensor) :
  preserves_params (DCN.forward m X) /\ reads_params_only (DCN.forward m X).
Proof.
  destruct Hread as [Hin [Hlin [Hdnn [Hdl [Hcross [Hcin [Hcl [Hse [Hbi Hout]]]]]]]]].
  unfold DCN.forward, DCN.final_logit. split; repeat fwd_step.
Qed.

Lemma FiBiNET_forward_frame (m : FiBiNET.model) (X : tensor) :
  preserves_params (FiBiNET.forward m X) /\ reads_params_only (FiBiNET.forward m X).
Proof.
  destruct Hread as [Hin [Hlin [Hdnn [Hdl [Hcross [Hcin [Hcl [Hse [Hbi Hout]]]]]]]]].
  unfold FiBiNET.forward, FiBiNET.final_logit. split; repeat fwd_step.
Qed.

Lemma xDeepFM_forward_frame (m : xDeepFM.model) (X : tensor) :
  preserves_params (xDeepFM.forward m X) /\ reads_params_only (xDeepFM.forward m X).
Proof.
  destruct Hread as [Hin [Hlin [Hdnn [Hdl [Hcross [Hcin [Hcl [Hse [Hbi Hout]]]]]]]]].
  unfold xDeepFM.forward, xDeepFM.final_logit. split; repeat fwd_step.
Qed.

End Repeatable.



(** ** More on the widths *)

Section WidthBounds.

Import XDeepFMDims.

Lemma sum_nonneg (xs : list Z) : Forall (fun x => 0 <= x) xs -> 0 <= sum xs.
Proof.
  induction 1 as [|x xs Hx _ IH]; [reflexivity|]. rewrite sum_cons. lia.
Qed.

Lemma half_add_le (a b : Z) : a / 2 + b / 2 <= (a + b) / 2.
Proof.
  apply Z.div_le_lower_bound; [lia|].
  pose proof (Z.mul_div_le a 2). pose proof (Z.mul_div_le b 2). lia.
Qed.

Lemma sum_halves_le (xs : list Z) : sum (map (fun h => h / 2) xs) <= sum xs / 2.
Proof.
  induction xs as [|x xs IH]; simpl.
  - reflexivity.
  - rewrite !sum_cons. pose proof (half_add_le x (sum xs)). lia.
Qed.

End WidthBounds.

(** X10.  With layer sizes that are all positive, the [featuremap_num] of
    xDeepFM under [cin_split_half] is defined, is at least the last layer
    size, so positive, and at most the [featuremap_num] without
    [cin_split_half]. *)
Theorem featuremap_num_bounds (Hs : list Z) (Hk : Z) :
  Forall (fun h => 0 < h) (Hs ++ [Hk]) ->
  exists half whole,
    XDeepFMDims.featuremap_num true (Hs ++ [Hk]) = Ok half
    /\ XDeepFMDims.featuremap_num false (Hs ++ [Hk]) = Ok whole
    /\ 0 < Hk <= half /\ half <= whole.
Proof.
  intros Hpos. apply Forall_app in Hpos. destruct Hpos as [HHs HHk].
  inversion HHk; subst.
  assert (Hnonneg : 0 <= sum Hs).
  { apply sum_nonneg. eapply Forall_impl; [|exact HHs]. simpl. intros; lia. }
  exists (sum Hs / 2 + Hk), (sum (Hs ++ [Hk])).
  split; [apply featuremap_num_split_half|].
  split; [apply featuremap_num_whole|].
  rewrite sum_app, sum_cons. change (sum []) with 0.
  pose proof (Z.div_pos (sum Hs) 2 Hnonneg ltac:(lia)).
  pose proof (Z.mul_div_le (sum Hs) 2 ltac:(lia)).
  lia.
Qed.

Lemma featuremap_num_bounds_witness :
  exists half whole,
    XDeepFMDims.featuremap_num true ([128] ++ [128]) = Ok half
    /\ XDeepFMDims.featuremap_num false ([128] ++ [128]) = Ok whole
    /\ 0 < 128 <= half /\ half <= whole.
Proof.
  apply (featuremap_num_bounds [128] 128). repeat constructor.
Defined.

(** X11.  Under [cin_split_half], [featuremap_num] is never below the sum of
    the halves of the layer sizes before the last plus the last size, and
    equals it when those sizes are all even. *)
Theorem featuremap_num_and_layer_halves (Hs : list Z) (Hk : Z) :
  exists fm,
    XDeepFMDims.featuremap_num true (Hs ++ [Hk]) = Ok fm
    /\ sum (map (fun h => h / 2) Hs) + Hk <= fm
    /\ (Forall (fun h => h mod 2 = 0) Hs ->
        fm = sum (map (fun h => h / 2) Hs) + Hk).
Proof.
  exists (sum Hs / 2 + Hk).
  split; [apply featuremap_num_split_half|]. split.
  - pose proof (sum_halves_le Hs). lia.
  - intros Heven. rewrite (half_sum_even Heven). reflexivity.
Qed.

Lemma featuremap_num_and_layer_halves_witness :
  exists fm,
    XDeepFMDims.featuremap_num true ([4; 6] ++ [3]) = Ok fm
    /\ fm = sum (map (fun h => h / 2) [4; 6]) + 3.
Proof.
  destruct (featuremap_num_and_layer_halves [4; 6] 3) as [fm [Hfm [_ Heven]]].
  exists fm. split; [exact Hfm|]. apply Heven. repeat constructor.
Defined.

(** ** The input width of the DNN of FiBiNET *)

Section InputDim.

Import FiBiNETDims.

Lemma length_filter_perm {A : Type} (f : A -> bool) (l l' : list A) :
  Permutation l l' -> len (filter f l) = len (filter f l').
Proof.
  unfold len. induction 1 as [|x l l' _ IH|x y l|l l' l'' _ IH1 _ IH2]; simpl.
  - reflexivity.
  - destruct (f x); simpl; lia.
  - destruct (f x), (f y); reflexivity.
  - lia.
Qed.

Lemma sum_filter_perm {A : Type} (f : A -> bool) (g : A -> Z) (l l' : list A) :
  Permutation l l' -> sum (map g (filter f l)) = sum (map g (filter f l')).
Proof.
  induction 1 as [|x l l' _ IH|x y l|l l' l'' _ IH1 _ IH2]; simpl.
  - reflexivity.
  - destruct (f x); simpl; rewrite ?sum_cons, IH; reflexivity.
  - destruct (f x), (f y); simpl; rewrite ?sum_cons; lia.
  - lia.
Qed.

Lemma dense_only_formula (feature_columns : list FeatureColumn) (embedding_size : Z) :
  compute_input_dim feature_columns embedding_size true
  = sum (map dimension (filter is_DenseFeat feature_columns)).
Proof. unfold compute_input_dim. destruct feature_columns; reflexivity. Qed.

End InputDim.

(** X12.  [FiBiNET.compute_input_dim] does not depend on the order of the
    feature columns, with [dense_only] or without. *)
Theorem compute_input_dim_order (cols cols' : list FeatureColumn)
        (embedding_size : Z) (dense_only : bool) :
  Permutation cols cols' ->
  FiBiNETDims.compute_input_dim cols embedding_size dense_only
  = FiBiNETDims.compute_input_dim cols' embedding_size dense_only.
Proof.
  intros Hperm. destruct dense_only.
  - rewrite !dense_only_formula. apply sum_filter_perm. exact Hperm.
  - rewrite !compute_input_dim_formula. cbv zeta.
    rewrite (length_filter_perm is_SparseFeat Hperm).
    rewrite (sum_filter_perm is_DenseFeat dimension Hperm). reflexivity.
Qed.

Lemma compute_input_dim_order_witness :
  FiBiNETDims.compute_input_dim
    [SparseFeat "C1" 10; DenseFeat "I1" 3; SparseFeat "C2" 10] 4 false
  = FiBiNETDims.compute_input_dim
      [DenseFeat "I1" 3; SparseFeat "C1" 10; SparseFeat "C2" 10] 4 false.
Proof.
  apply compute_input_dim_order. apply perm_swap.
Defined.

(** X13.  Adding a sparse column to [F] sparse columns widens the input of
    the DNN of FiBiNET by [2 * F * embedding_size], and leaves the
    [dense_only] width as it is; adding a dense column widens both by its
    dimension; appending lists of columns adds their [dense_only] widths. *)
Theorem compute_input_dim_grows (cols more : list FeatureColumn) (embedding_size : Z)
        (name : string) (d : Z) :
  let F := len (filter is_SparseFeat cols) in
  FiBiNETDims.compute_input_dim (SparseFeat name d :: cols) embedding_size false
  = FiBiNETDims.compute_input_dim cols embedding_size false + 2 * F * embedding_size
  /\ FiBiNETDims.compute_input_dim (SparseFeat name d :: cols) embedding_size true
     = FiBiNETDims.compute_input_dim cols embedding_size true
  /\ (forall dense_only,
         FiBiNETDims.compute_input_dim (DenseFeat name d :: cols) embedding_size
                                       dense_only
         = FiBiNETDims.compute_input_dim cols embedding_size dense_only + d)
  /\ FiBiNETDims.compute_input_dim (cols ++ more) embedding_size true
     = FiBiNETDims.compute_input_dim cols embedding_size true
       + FiBiNETDims.compute_input_dim more embedding_size true.
Proof.
  cbv zeta. split; [|split; [|split]].
  - rewrite !compute_input_dim_formula. cbv zeta. simpl filter.
    unfold len. simpl List.length. lia.
  - rewrite !dense_only_formula. reflexivity.
  - intros [|].
    + rewrite !dense_only_formula. simpl. rewrite sum_cons. lia.
    + rewrite !compute_input_dim_formula. cbv zeta. simpl. rewrite sum_cons. lia.
  - rewrite !dense_only_formula, filter_app, map_app, sum_app. reflexivity.
Qed.

(** X14.  With fewer than two sparse columns there is no pair of fields:
    the input width of the DNN of FiBiNET is the [dense_only] width, and
    with no columns at all it is zero. *)
Theorem compute_input_dim_without_pairs (cols : list FeatureColumn)
        (embedding_size : Z) :
  len (filter is_SparseFeat cols) <= 1 ->
  FiBiNETDims.compute_input_dim cols embedding_size false
  = FiBiNETDims.compute_input_dim cols embedding_size true
  /\ (cols = [] -> FiBiNETDims.compute_input_dim cols embedding_size false = 0).
Proof.
  intros HF. split.
  - rewrite compute_input_dim_formula, dense_only_formula. cbv zeta.
    pose proof (len_nonneg (filter is_SparseFeat cols)) as H0.
    assert (HF01 : len (filter is_SparseFeat cols) = 0
                   \/ len (filter is_SparseFeat cols) = 1) by lia.
    destruct HF01 as [-> | ->]; reflexivity.
  - intros ->. reflexivity.
Qed.

Lemma compute_input_dim_without_pairs_witness :
  FiBiNETDims.compute_input_dim [SparseFeat "C1" 10; DenseFeat "I1" 3] 4 false
  = FiBiNETDims.compute_input_dim [SparseFeat "C1" 10; DenseFeat "I1" 3] 4 true.
Proof.
  refine (proj1 (@compute_input_dim_without_pairs
                   [SparseFeat "C1" 10; DenseFeat "I1" 3] 4 _)).
  unfold len. simpl. lia.
Defined.

(** X15.  With a non-negative embedding size and non-negative dense
    dimensions, the input width of the DNN of FiBiNET is at least the
    [dense_only] width, which is non-negative. *)
Theorem compute_input_dim_nonneg (cols : list FeatureColumn) (embedding_size : Z) :
  0 <= embedding_size ->
  Forall (fun c => is_DenseFeat c = true -> 0 <= dimension c) cols ->
  0 <= FiBiNETDims.compute_input_dim cols embedding_size true
  /\ FiBiNETDims.compute_input_dim cols embedding_size true
     <= FiBiNETDims.compute_input_dim cols embedding_size false.
Proof.
  intros HE Hdims.
  rewrite compute_input_dim_formula, dense_only_formula. cbv zeta.
  pose proof (len_nonneg (filter is_SparseFeat cols)) as HF.
  split.
  - apply sum_nonneg. apply Forall_map. apply Forall_forall.
    intros c Hc. apply filter_In in Hc. destruct Hc as [Hin Hdense].
    rewrite Forall_forall in Hdims. apply Hdims; assumption.
  - assert (0 <= len (filter is_SparseFeat cols)
                 * (len (filter is_SparseFeat cols) - 1) * embedding_size).
    { apply Z.mul_nonneg_nonneg; [|exact HE].
      assert (Hcases : len (filter is_SparseFeat cols) = 0
                       \/ 1 <= len (filter is_SparseFeat cols)) by lia.
      destruct Hcases as [-> | H1]; [reflexivity|].
      apply Z.mul_nonneg_nonneg; lia. }
    lia.
Qed.

Lemma compute_input_dim_nonneg_witness :
  0 <= FiBiNETDims.compute_input_dim
         [SparseFeat "C1" 10; SparseFeat "C2" 10; DenseFeat "I1" 3] 4 true
  /\ FiBiNETDims.compute_input_dim
       [SparseFeat "C1" 10; SparseFeat "C2" 10; DenseFeat "I1" 3] 4 true
     <= FiBiNETDims.compute_input_dim
          [SparseFeat "C1" 10; SparseFeat "C2" 10; DenseFeat "I1" 3] 4 false.
Proof.
  apply compute_input_dim_nonneg; [lia|].
  repeat constructor; simpl; intros; try discriminate; lia.
Defined.

(** ** What a constructor registers for regularization *)

Section Registered.

Context {fw : Framework}.

Lemma xDeepFM_init_trace (c : xDeepFM.config) (tr : list ctor_event) (m : xDeepFM.model) :
  xDeepFM.init c = (tr, Ok m) ->
  exists last,
    index_last (xDeepFM.dnn_hidden_units c) = Ok last
    /\ tr = [NewBaseModel (xDeepFM.linear_feature_columns c)
                          (xDeepFM.dnn_feature_columns c) (xDeepFM.embedding_size c)
                          (xDeepFM.dnn_hidden_units c) (xDeepFM.task c);
             NewDNN (base_compute_input_dim (xDeepFM.dnn_feature_columns c)
                                            (xDeepFM.embedding_size c))
                    (xDeepFM.dnn_hidden_units c);
             NewLinear last 1;
             NewCIN (embedding_dict_len (xDeepFM.dnn_feature_columns c))
                    (xDeepFM.cin_layer_size c) (xDeepFM.cin_split_half c);
             NewLinear (xDeepFM.self_featuremap_num m) 1;
             AddRegularizationLoss RegDnnWeights;
             AddRegularizationLoss RegDnnLinearWeight;
             AddRegularizationLoss RegCinWeights].
Proof.
  unfold xDeepFM.init. intros H. ctor_inv H. subst. simpl.
  eexists. split; [eassumption | reflexivity].
Qed.

Lemma FiBiNET_init_registers_nothing (c : FiBiNET.config) :
  registered (trace (FiBiNET.init c)) = [].
Proof.
  unfold FiBiNET.init, new.
  destruct (accepts (NewBaseModel _ _ _ _ _)) as [[]|e]; [|reflexivity].
  destruct (accepts (NewSENETLayer _ _)) as [[]|e]; [|reflexivity].
  destruct (accepts (NewBilinearInteraction _ _ _)) as [[]|e]; [|reflexivity].
  destruct (accepts (NewDNN _ _)) as [[]|e]; [|reflexivity].
  destruct (index_last (FiBiNET.dnn_hidden_units c)) as [last|e]; [|reflexivity].
  cbn. destruct (accepts (NewLinear last 1)) as [[]|e]; reflexivity.
Qed.

End Registered.

(** X16.  A constructed DCN has registered a regularization loss for the
    weights of the DNN, the weight of [dnn_linear] and the kernels of the
    cross network, in this order; a constructed xDeepFM for the weights of
    the DNN, the weight of [dnn_linear] and the weights of the CIN, and none
    for [cin_linear]; the constructor of FiBiNET registers none, whether it
    returns or raises. *)
Theorem registered_regularization {fw : Framework} :
  (forall (c : DCN.config) tr m,
      DCN.init c = (tr, Ok m) ->
      registered tr = [RegDnnWeights; RegDnnLinearWeight; RegCrossnetKernels])
  /\ (forall (c : xDeepFM.config) tr m,
         xDeepFM.init c = (tr, Ok m) ->
         registered tr = [RegDnnWeights; RegDnnLinearWeight; RegCinWeights])
  /\ (forall c : FiBiNET.config, registered (trace (FiBiNET.init c)) = []).
Proof.
  split; [|split].
  - intros c tr m H.
    destruct (@DCN_init_inv _ _ _ _ H) as [_ [_ [_ [_ [_ ->]]]]]. reflexivity.
  - intros c tr m H.
    destruct (@xDeepFM_init_trace _ _ _ _ H) as [last [_ ->]]. reflexivity.
  - apply FiBiNET_init_registers_nothing.
Qed.

Lemma registered_regularization_witness :
  exists tr m,
    DCN.init (fw := Toy.framework) Toy.dcn_deep_cross = (tr, Ok m)
    /\ registered tr = [RegDnnWeights; RegDnnLinearWeight; RegCrossnetKernels].
Proof.
  eexists. eexists. split; [reflexivity|].
  exact (proj1 (@registered_regularization Toy.framework)
           Toy.dcn_deep_cross _ _ eq_refl).
Defined.
